(** * Network RPC handlers of the Anoncoin node (src/rpcnet.cpp)

    A shallow embedding of the peer-registry and alert RPC handlers:
    [ping], [addnode], [getaddednodeinfo], [GetNetworksInfo],
    [SingleAlertSubVersionsString], [getnetworkinfo] and [sendalert].

    The handlers read and write three process-wide containers ([vNodes],
    [vAddedNodes], [mapAlerts]) and raise C++ exceptions.  They are modelled
    in a small state-and-exception monad that also records every call made
    to a collaborator living outside rpcnet.cpp (connection manager, alert
    store, logger).  Locks ([LOCK(cs_...)]) are not represented: the model
    is the sequential behaviour of one handler invocation. *)

From Stdlib Require Import ZArith List String Ascii Bool Arith Lia Sorted.
Import ListNotations.

Local Open Scope list_scope.

(** ** JSON values (json_spirit) *)

#[warnings="-register-all"]
Inductive Value : Type :=
| Vnull
| Vbool (b : bool)
| Vint (n : Z)
| Vstr (s : string)
| Varray (a : list Value)
| Vobject (o : list (string * Value)).

Definition Array := list Value.
Definition Object := list (string * Value).
Definition Pair (name : string) (v : Value) : string * Value := (name, v).

(** [std::vector::push_back] / [std::list::push_back]. *)
Definition push_back {A : Type} (v : list A) (x : A) : list A := v ++ [x].

(** ** Exceptions *)

Inductive RPCErrorCode : Type :=
| RPC_CLIENT_NODE_ALREADY_ADDED
| RPC_CLIENT_NODE_NOT_ADDED.

Inductive Exception : Type :=
| runtime_error (what : string)
| JSONRPCError (code : RPCErrorCode) (message : string).

Inductive Result (A : Type) : Type :=
| Return (a : A)
| Throw (e : Exception).
Arguments Return {A} a.
Arguments Throw {A} e.

(** The help text of a handler; the text itself is abbreviated to the
    handler's name. *)
Definition usage (rpc : string) : Exception := runtime_error rpc.

(** The line feed, and a text closed by one, as in the C++ literals that end
    in a newline escape. *)
Definition LF : string := String "010"%char EmptyString.
Definition line (text : string) : string := String.append text LF.

(** ** Fixed-width integers *)

Definition wrap64 (z : Z) : Z := z mod 2 ^ 64.
Definition to_int32 (z : Z) : Z := (z + 2 ^ 31) mod 2 ^ 32 - 2 ^ 31.
Definition to_int64 (z : Z) : Z := (z + 2 ^ 63) mod 2 ^ 64 - 2 ^ 63.

(** ** Peers, added nodes and alerts *)

Definition uint256 := Z.

(** Modelled from the spec: the address type is declared in netbase.h, which
    is absent; the spec gives a peer a remote address:port compared by
    equality. *)
Record CService : Type := mkCService { ip : N; port : N }.

(** [CNetAddr], the base of [CService]: the address without the port. *)
Definition CNetAddr : Type := N.

Definition CService_eqb (a b : CService) : bool :=
  N.eqb (ip a) (ip b) && N.eqb (port a) (port b).

(** The members of [CNode] (net.h, absent) that rpcnet.cpp reads or writes,
    with the byte counters and timestamps it reports. *)
Record CNode : Type := mkCNode {
  id : Z;
  addr : CService;
  fInbound : bool;
  fPingQueued : bool;
  nSendBytes : Z;
  nRecvBytes : Z;
  nLastSend : Z;
  nLastRecv : Z;
  setKnown : list uint256
}.

Definition set_fPingQueued (pNode : CNode) (b : bool) : CNode :=
  {| id := id pNode; addr := addr pNode; fInbound := fInbound pNode;
     fPingQueued := b;
     nSendBytes := nSendBytes pNode; nRecvBytes := nRecvBytes pNode;
     nLastSend := nLastSend pNode; nLastRecv := nLastRecv pNode;
     setKnown := setKnown pNode |}.

(** The members of [CAlert] (alert.h, absent) that rpcnet.cpp assigns or
    renders.  [setSubVer] is a [std::set<std::string>], kept as the sequence
    of its elements in iteration (ascending) order. *)
Record CAlert : Type := mkCAlert {
  nVersion : Z;
  nRelayUntil : Z;
  nExpiration : Z;
  nID : Z;
  nCancel : Z;
  nMinVer : Z;
  nMaxVer : Z;
  setSubVer : list string;
  nPriority : Z;
  strStatusBar : string;
  vchMsg : list Byte.byte;
  vchSig : list Byte.byte
}.

(** The process-wide containers: live peers in registration order, the
    added-node list, and the alert map in key order. *)
Record Globals : Type := mkGlobals {
  vNodes : list CNode;
  vAddedNodes : list string;
  mapAlerts : list (uint256 * CAlert)
}.

(** Calls that leave rpcnet.cpp. *)
Inductive Call : Type :=
| CallConnectNode (strDest : string)
| CallLogPrintf (msg : string)
| CallProcessAlert (alert : CAlert)
| CallPrint (alert : CAlert)
| CallRelayTo (alert : CAlert) (peer : Z).

(** ** The handler monad: state, exceptions, and the log of outgoing calls *)

Definition RPC (A : Type) : Type := Globals -> Result A * Globals * list Call.

Definition ret {A} (a : A) : RPC A := fun g => (Return a, g, []).
Definition throw {A} (e : Exception) : RPC A := fun g => (Throw e, g, []).
Definition bind {A B} (m : RPC A) (f : A -> RPC B) : RPC B :=
  fun g =>
    match m g with
    | (Return a, g', c) =>
        match f a g' with
        | (r, g'', c') => (r, g'', c ++ c')
        end
    | (Throw e, g', c) => (Throw e, g', c)
    end.
Definition gets {A} (proj : Globals -> A) : RPC A := fun g => (Return (proj g), g, []).
Definition modify (f : Globals -> Globals) : RPC unit := fun g => (Return tt, f g, []).
Definition emit (c : Call) : RPC unit := fun g => (Return tt, g, [c]).

Notation "x <- m ;; k" := (bind m (fun x => k))
  (at level 61, m at next level, right associativity).
Notation "m ;;; k" := (bind m (fun _ => k))
  (at level 61, right associativity).

Definition set_vchMsg (alert : CAlert) (v : list Byte.byte) : CAlert :=
  {| nVersion := nVersion alert; nRelayUntil := nRelayUntil alert;
     nExpiration := nExpiration alert; nID := nID alert; nCancel := nCancel alert;
     nMinVer := nMinVer alert; nMaxVer := nMaxVer alert; setSubVer := setSubVer alert;
     nPriority := nPriority alert; strStatusBar := strStatusBar alert;
     vchMsg := v; vchSig := vchSig alert |}.
Definition set_vchSig (alert : CAlert) (v : list Byte.byte) : CAlert :=
  {| nVersion := nVersion alert; nRelayUntil := nRelayUntil alert;
     nExpiration := nExpiration alert; nID := nID alert; nCancel := nCancel alert;
     nMinVer := nMinVer alert; nMaxVer := nMaxVer alert; setSubVer := setSubVer alert;
     nPriority := nPriority alert; strStatusBar := strStatusBar alert;
     vchMsg := vchMsg alert; vchSig := v |}.

Definition with_vNodes (f : list CNode -> list CNode) (g : Globals) : Globals :=
  {| vNodes := f (vNodes g); vAddedNodes := vAddedNodes g; mapAlerts := mapAlerts g |}.
Definition with_vAddedNodes (f : list string -> list string) (g : Globals) : Globals :=
  {| vNodes := vNodes g; vAddedNodes := f (vAddedNodes g); mapAlerts := mapAlerts g |}.
Definition with_mapAlerts (f : list (uint256 * CAlert) -> list (uint256 * CAlert))
    (g : Globals) : Globals :=
  {| vNodes := vNodes g; vAddedNodes := vAddedNodes g; mapAlerts := f (mapAlerts g) |}.

(** Typed accessors of a JSON value: a type mismatch throws. *)
Definition get_str (v : Value) : RPC string :=
  match v with Vstr s => ret s | _ => throw (runtime_error "value is not a string") end.
Definition get_int (v : Value) : RPC Z :=
  match v with Vint n => ret (to_int32 n) | _ => throw (runtime_error "value is not an integer") end.
Definition get_bool (v : Value) : RPC bool :=
  match v with Vbool b => ret b | _ => throw (runtime_error "value is not a boolean") end.

(** [params[i]]; every use is guarded by a check of [params.size()]. *)
Definition param (params : Array) (i : nat) : Value := nth i params Vnull.

(** ** [std::string] and [std::set<std::string>]

    [size_type] is an unsigned 64-bit integer: positions are [Z] and every
    arithmetic step is reduced by [wrap64].  [npos] is [None]. *)

Definition size (s : string) : Z := Z.of_nat (String.length s).

(** [s[i] == c] *)
Definition char_is (s : string) (i : Z) (c : ascii) : bool :=
  match String.get (Z.to_nat i) s with
  | Some a => Ascii.eqb a c
  | None => false
  end.

(** [s.find(c, pos)]: the first position [>= pos] holding [c]; [i] is the
    position of the head of the remaining text. *)
Fixpoint find_at (c : ascii) (s : string) (pos i : Z) : option Z :=
  match s with
  | EmptyString => None
  | String a t =>
      if (pos <=? i)%Z && Ascii.eqb a c then Some i else find_at c t pos (i + 1)%Z
  end.
Definition find (s : string) (c : ascii) (pos : Z) : option Z := find_at c s pos 0%Z.

(** [s.substr(pos, n)] for [pos <= s.size()]. *)
Definition substr (s : string) (pos n : Z) : string :=
  String.substring (Z.to_nat pos) (Z.to_nat n) s.

(** [std::set<std::string>::insert]: the set is the ascending sequence of
    its elements, compared byte-wise. *)
Fixpoint set_insert (x : string) (s : list string) : list string :=
  match s with
  | [] => [x]
  | y :: s' =>
      match String.compare x y with
      | Lt => x :: s
      | Eq => s
      | Gt => y :: set_insert x s'
      end
  end.

(** The parsing loop of sendalert (rpcnet.cpp 498-502):

      iPos = 1;
      while ((iLast = s.find('/', iPos--)) != npos) {
          set.insert(s.substr(iPos, ++iLast - iPos));
          iPos = iLast;
      }

    [fuel] bounds the number of iterations; [None] means the bound was hit
    before the loop left. *)
Fixpoint subver_loop (fuel : nat) (s : string) (iPos : Z) (setSubVer : list string)
    : option (list string) :=
  match fuel with
  | O => None
  | S fuel' =>
      let iLast := find s "/"%char iPos in      (* the search uses iPos before -- *)
      let iPos := wrap64 (iPos - 1) in
      match iLast with
      | None => Some setSubVer
      | Some iLast =>
          let iLast := wrap64 (iLast + 1) in
          let setSubVer := set_insert (substr s iPos (wrap64 (iLast - iPos))) setSubVer in
          let iPos := iLast in
          subver_loop fuel' s iPos setSubVer
      end
  end.

(** ** Collaborators

    Everything rpcnet.cpp calls but does not define: name resolution and
    address printing (netbase), the connection manager (net), the transport
    configuration, client constants, the key authority (key) and the alert
    store (alert). *)

Record proxyType : Type := mkProxy { IsValid : bool; ToStringIPPort : string }.
Record LocalServiceInfo : Type := mkLocalServiceInfo { nScore : Z; nPort : Z }.

Class Collaborators : Type := {
  (* netbase.h / chainparams.h *)
  Lookup : string -> Z -> bool -> Z -> bool * list CService;
  ToString : CService -> string;
  CNetAddr_ToString : CNetAddr -> string;
  GetDefaultPort : Z;
  fNameLookup : bool;
  (* net.h *)
  ConnectNode : string -> list CNode -> list CNode;
  NET_MAX : nat;
  NET_UNROUTABLE : nat;
  GetProxy : nat -> proxyType;
  GetNetworkName : nat -> string;
  IsLimited : nat -> bool;
  IsReachable : nat -> bool;
  mapLocalHost : list (CNetAddr * LocalServiceInfo);
  nLocalServices : Z;
  GetTimeOffset : Z;
  GetAdjustedTime : Z;
  (* version.h / clientversion.h / util.h / main.h *)
  CLIENT_VERSION : Z;
  CLIENT_NAME : string;
  PROTOCOL_VERSION : Z;
  FormatSubVersion : string -> Z -> list string -> string;
  strprintf_08x : Z -> string;
  strprintf_02x : Byte.byte -> string;
  ParseHex : string -> list Byte.byte;
  relayfee : Value;
  (* serialize.h / hash.h / key.h *)
  Serialize : CAlert -> list Byte.byte;
  Hash : list Byte.byte -> uint256;
  CKey : Type;
  CKey_new : CKey;
  CKey_Set : CKey -> list Byte.byte -> CKey;
  GetPrivKey : CKey -> list Byte.byte;
  SetPrivKey : CKey -> list Byte.byte -> bool * CKey;
  Sign : CKey -> uint256 -> bool * list Byte.byte;
  (* alert.h *)
  ProcessAlert : CAlert -> list (uint256 * CAlert) -> bool * list (uint256 * CAlert);
  RelayTo : CAlert -> CNode -> CNode
}.

Section Handlers.
Context `{Collaborators}.

(** *** ping (rpcnet.cpp 40-60) *)

Definition ping (params : Array) (fHelp : bool) : RPC Value :=
  if fHelp || negb (Nat.eqb (List.length params) 0) then throw (usage "ping") else
  (* Request that each node send a ping during next message processing pass *)
  modify (with_vNodes (map (fun pNode => set_fPingQueued pNode true))) ;;;
  ret Vnull.

(** *** addnode (rpcnet.cpp 148-196) *)

(** [for(; it != vAddedNodes.end(); it++) if (strNode == *it) break;]
    The iterator is the index it points at; [end()] is the length. *)
Fixpoint find_added (strNode : string) (v : list string) (it : nat) : nat :=
  match v with
  | [] => it
  | s :: v' => if String.eqb strNode s then it else find_added strNode v' (S it)
  end.

(** [vector::erase(it)] for a valid iterator. *)
Definition erase {A : Type} (v : list A) (it : nat) : list A :=
  firstn it v ++ skipn (S it) v.

Definition addnode (params : Array) (fHelp : bool) : RPC Value :=
  strCommand <- (if Nat.eqb (List.length params) 2 then get_str (param params 1) else ret EmptyString) ;;
  if fHelp || negb (Nat.eqb (List.length params) 2) ||
     (negb (String.eqb strCommand "onetry") && negb (String.eqb strCommand "add")
      && negb (String.eqb strCommand "remove"))
  then throw (usage "addnode") else
  strNode <- get_str (param params 0) ;;
  if String.eqb strCommand "onetry" then
    emit (CallConnectNode strNode) ;;;
    modify (with_vNodes (ConnectNode strNode)) ;;;
    ret Vnull
  else
  vAdded <- gets vAddedNodes ;;
  let it := find_added strNode vAdded 0 in
  (if String.eqb strCommand "add" then
     if negb (Nat.eqb it (List.length vAdded))
     then throw (JSONRPCError RPC_CLIENT_NODE_ALREADY_ADDED "Error: Node already added")
     else modify (with_vAddedNodes (fun v => push_back v strNode))
   else if String.eqb strCommand "remove" then
     if Nat.eqb it (List.length vAdded)
     then throw (JSONRPCError RPC_CLIENT_NODE_NOT_ADDED "Error: Node has not been added.")
     else modify (with_vAddedNodes (fun v => erase v it))
   else ret tt) ;;;
  ret Vnull.

(** *** getaddednodeinfo (rpcnet.cpp 198-313) *)

(** Second parameter given: the first added node equal to it, if any. *)
Fixpoint select_added (strNode : string) (vAdded : list string) (laddedNodes : list string)
    : list string :=
  match vAdded with
  | [] => laddedNodes
  | strAddNode :: rest =>
      if String.eqb strAddNode strNode
      then push_back laddedNodes strAddNode  (* break *)
      else select_added strNode rest laddedNodes
  end.

(** Body of the resolution loop (266-280).  The loop state is the result
    array [ret] declared at 254 and the list [laddedAddreses]. *)
Definition resolve_added (acc : Array * list (string * list CService)) (strAddNode : string)
    : Array * list (string * list CService) :=
  let '(ret_, laddedAddreses) := acc in
  let '(ok, vservNode) := Lookup strAddNode GetDefaultPort fNameLookup 0 in
  if ok then (ret_, push_back laddedAddreses (strAddNode, vservNode))
  else
    let obj : Object := [] in
    let obj := push_back obj (Pair "addednode" (Vstr strAddNode)) in
    let obj := push_back obj (Pair "connected" (Vbool false)) in
    let addresses : Array := [] in
    let obj := push_back obj (Pair "addresses" (Varray addresses)) in
    (* [obj] leaves scope here; nothing is appended to [ret] *)
    (ret_, laddedAddreses).

(** [BOOST_FOREACH(CNode* pnode, vNodes) if (pnode->addr == addrNode) {...; break;}] *)
Fixpoint match_peer (addrNode : CService) (nodes : list CNode)
    (st : bool * bool * Object) : bool * bool * Object :=
  match nodes with
  | [] => st
  | pnode :: rest =>
      if CService_eqb (addr pnode) addrNode then
        let '(_, _, node) := st in
        (true, true,
         push_back node (Pair "connected"
                           (Vstr (if fInbound pnode then "inbound" else "outbound"))))
      else match_peer addrNode rest st
  end.

(** Body of the loop over one added node's candidate addresses (290-306). *)
Definition report_address (nodes : list CNode) (acc : bool * Array) (addrNode : CService)
    : bool * Array :=
  let '(fConnected, addresses) := acc in
  let fFound := false in
  let node : Object := [] in
  let node := push_back node (Pair "address" (Vstr (ToString addrNode))) in
  let '(fFound, fConnected, node) := match_peer addrNode nodes (fFound, fConnected, node) in
  let node := if negb fFound then push_back node (Pair "connected" (Vstr "false")) else node in
  (fConnected, push_back addresses (Vobject node)).

(** Body of the loop over [laddedAddreses] (283-310). *)
Definition report_added (nodes : list CNode) (ret_ : Array) (it : string * list CService)
    : Array :=
  let obj : Object := [] in
  let obj := push_back obj (Pair "addednode" (Vstr (fst it))) in
  let addresses : Array := [] in
  let fConnected := false in
  let '(fConnected, addresses) :=
    fold_left (report_address nodes) (snd it) (fConnected, addresses) in
  let obj := push_back obj (Pair "connected" (Vbool fConnected)) in
  let obj := push_back obj (Pair "addresses" (Varray addresses)) in
  push_back ret_ (Vobject obj).

Definition getaddednodeinfo (params : Array) (fHelp : bool) : RPC Value :=
  if fHelp || Nat.ltb (List.length params) 1 || Nat.ltb 2 (List.length params)
  then throw (usage "getaddednodeinfo") else
  fDns <- get_bool (param params 0) ;;
  vAdded <- gets vAddedNodes ;;
  laddedNodes <-
    (if Nat.eqb (List.length params) 1 then
       ret (fold_left (fun l strAddNode => push_back l strAddNode) vAdded [])
     else
       strNode <- get_str (param params 1) ;;
       let laddedNodes := select_added strNode vAdded [] in
       if Nat.eqb (List.length laddedNodes) 0
       then throw (JSONRPCError RPC_CLIENT_NODE_NOT_ADDED "Error: Node has not been added.")
       else ret laddedNodes) ;;
  let ret_ : Array := [] in
  if negb fDns then
    ret (Varray (fold_left
                   (fun ret_ strAddNode =>
                      push_back ret_ (Vobject [Pair "addednode" (Vstr strAddNode)]))
                   laddedNodes ret_))
  else
  let '(ret_, laddedAddreses) := fold_left resolve_added laddedNodes (ret_, []) in
  nodes <- gets vNodes ;;
  ret (Varray (fold_left (report_added nodes) laddedAddreses ret_)).

(** *** GetNetworksInfo (rpcnet.cpp 340-358) *)

(** Body of the loop over the transport numbers (345-355). *)
Definition network_info (networks : Array) (n : nat) : Array :=
  let network := n in
  if Nat.eqb network NET_UNROUTABLE then networks (* continue *) else
  let proxy := GetProxy network in
  let obj : Object := [] in
  let obj := push_back obj (Pair "name" (Vstr (GetNetworkName network))) in
  let obj := push_back obj (Pair "limited" (Vbool (IsLimited network))) in
  let obj := push_back obj (Pair "reachable" (Vbool (IsReachable network))) in
  let obj := push_back obj (Pair "proxy"
               (Vstr (if IsValid proxy then ToStringIPPort proxy else EmptyString))) in
  push_back networks (Vobject obj).

(** [for(int n=0; n<NET_MAX; ++n)] *)
Definition GetNetworksInfo : Array :=
  fold_left network_info (seq 0 NET_MAX) [].

(** *** SingleAlertSubVersionsString (rpcnet.cpp 360-369) *)

Definition SingleAlertSubVersionsString (setVersions : list string) : string :=
  fold_left
    (fun (strSetSubVer : string) (str : string) =>
       let strSetSubVer :=
         if negb (Nat.eqb (String.length strSetSubVer) 0)   (* Must be more than one *)
         then String.append strSetSubVer " or "
         else strSetSubVer in
       String.append strSetSubVer str)
    setVersions EmptyString.

(** *** getnetworkinfo (rpcnet.cpp 371-458) *)

Definition local_address (localAddresses : Array) (item : CNetAddr * LocalServiceInfo)
    : Array :=
  let rec_ : Object := [] in
  let rec_ := push_back rec_ (Pair "address" (Vstr (CNetAddr_ToString (fst item)))) in
  let rec_ := push_back rec_ (Pair "port" (Vint (nPort (snd item)))) in
  let rec_ := push_back rec_ (Pair "score" (Vint (nScore (snd item)))) in
  push_back localAddresses (Vobject rec_).

(** Body of the loop over [mapAlerts] (441-453). *)
Definition alert_record (localAlerts : Array) (mi : uint256 * CAlert) : Array :=
  let alert := snd mi in
  let rec_ : Object := [] in
  let rec_ := push_back rec_ (Pair "AlertID" (Vint (nID alert))) in
  let rec_ := push_back rec_ (Pair "Priority" (Vint (nPriority alert))) in
  let rec_ := push_back rec_ (Pair "MinVer" (Vint (nMinVer alert))) in
  let rec_ := push_back rec_ (Pair "MaxVer" (Vint (nMaxVer alert))) in
  let rec_ := push_back rec_ (Pair "SubVer"
                (Vstr (SingleAlertSubVersionsString (setSubVer alert)))) in
  let rec_ := push_back rec_ (Pair "RelayUntil" (Vint (nRelayUntil alert))) in
  let rec_ := push_back rec_ (Pair "Expiration" (Vint (nExpiration alert))) in
  let rec_ := push_back rec_ (Pair "StatusBar" (Vstr (strStatusBar alert))) in
  push_back localAlerts (Vobject rec_).

Definition getnetworkinfo (params : Array) (fHelp : bool) : RPC Value :=
  if fHelp || negb (Nat.eqb (List.length params) 0) then throw (usage "getnetworkinfo") else
  nodes <- gets vNodes ;;
  let obj : Object := [] in
  let obj := push_back obj (Pair "version" (Vint (to_int32 CLIENT_VERSION))) in
  let obj := push_back obj (Pair "subversion"
               (Vstr (FormatSubVersion CLIENT_NAME CLIENT_VERSION []))) in
  let obj := push_back obj (Pair "protocolversion" (Vint (to_int32 PROTOCOL_VERSION))) in
  let obj := push_back obj (Pair "localservices" (Vstr (strprintf_08x nLocalServices))) in
  let obj := push_back obj (Pair "timeoffset" (Vint GetTimeOffset)) in
  let obj := push_back obj (Pair "connections"
               (Vint (to_int32 (Z.of_nat (List.length nodes))))) in
  let obj := push_back obj (Pair "relayfee" relayfee) in
  let obj := push_back obj (Pair "networkconnections" (Varray GetNetworksInfo)) in
  let localAddresses : Array := fold_left local_address mapLocalHost [] in
  let obj := push_back obj (Pair "localaddresses" (Varray localAddresses)) in
  (* Add in the list of alerts currently on the network *)
  alerts <- gets mapAlerts ;;
  let localAlerts : Array := [] in
  let localAlerts :=
    if negb (Nat.eqb (List.length alerts) 0)
    then fold_left alert_record alerts localAlerts
    else localAlerts in
  let obj := push_back obj (Pair "alerts" (Varray localAlerts)) in
  ret (Vobject obj).

(** *** sendalert (rpcnet.cpp 465-593) *)

(** Lines 494-506.  One iteration consumes at least one character, so
    [size + 1] iterations always suffice ([subver_loop_terminates]); the
    [None] branch is not reached. *)
Definition parse_subvers (strSetSubVers : string) : RPC (list string) :=
  if negb (Nat.eqb (String.length strSetSubVers) 0) then
    (* The 1st and last chars need to be a '/' or it was not entered correctly *)
    if char_is strSetSubVers 0 "/" &&
       char_is strSetSubVers (wrap64 (size strSetSubVers - 1)) "/"
    then
      match subver_loop (S (String.length strSetSubVers)) strSetSubVers 1 [] with
      | Some setSubVer_ => ret setSubVer_
      | None => ret []
      end
    else throw (runtime_error
                  (line "Invalid client subversion(s) string, see BIP14 for specifications"))
  else ret [].

(** [alert.ProcessAlert()]: the alert store decides and may rewrite the map. *)
Definition process_alert (alert : CAlert) : RPC bool :=
  fun g =>
    let '(ok, m) := ProcessAlert alert (mapAlerts g) in
    (Return ok, with_mapAlerts (fun _ => m) g, [CallProcessAlert alert]).

(** [BOOST_FOREACH(CNode* pnode, vNodes) alert.RelayTo(pnode);] *)
Definition relay_all (alert : CAlert) : RPC unit :=
  fun g =>
    (Return tt, with_vNodes (map (RelayTo alert)) g,
     map (fun pnode => CallRelayTo alert (id pnode)) (vNodes g)).

(** Lines 482-526: the unsigned alert built from the parameters, with its
    serialized form. *)
Definition sendalert_alert (params : Array) : RPC CAlert :=
  strStatusBar_ <- get_str (param params 0) ;;
  nMinVer_ <- get_int (param params 2) ;;
  nMaxVer_ <- get_int (param params 3) ;;
  strSetSubVers <- get_str (param params 4) ;;
  setSubVer_ <- parse_subvers strSetSubVers ;;
  nPriority_ <- get_int (param params 5) ;;
  nID_ <- get_int (param params 6) ;;
  nCancel_ <- (if Nat.ltb 9 (List.length params) then get_int (param params 9) else ret 0%Z) ;;
  (* Relay and don't expire this alert for one year, or the number of days given *)
  let i64AlertNow := GetAdjustedTime in
  relaydays <- (if Nat.ltb 7 (List.length params) then get_int (param params 7)
                else ret 365%Z) ;;
  let nRelayUntil_ := to_int64 (to_int64 (relaydays * (24 * 60 * 60)) + i64AlertNow) in
  expiredays <- (if Nat.ltb 8 (List.length params) then get_int (param params 8)
                 else ret 365%Z) ;;
  let nExpiration_ := to_int64 (to_int64 (expiredays * (24 * 60 * 60)) + i64AlertNow) in
  let alert :=
    {| nVersion := PROTOCOL_VERSION; nRelayUntil := nRelayUntil_;
       nExpiration := nExpiration_; nID := nID_; nCancel := nCancel_;
       nMinVer := nMinVer_; nMaxVer := nMaxVer_; setSubVer := setSubVer_;
       nPriority := nPriority_; strStatusBar := strStatusBar_;
       vchMsg := []; vchSig := [] |} in
  ret (set_vchMsg alert (Serialize alert)).

(** Lines 544-558: the signing key loaded from the hex parameter. *)
Definition sendalert_key (params : Array) : RPC CKey :=
  strPrivKey <- get_str (param params 1) ;;
  let vchPrivKey := ParseHex strPrivKey in
  let key := CKey_new in
  if Nat.eqb (List.length vchPrivKey) 32 then
    (* Then we're given only a 32-byte private key multipler *)
    let key := CKey_Set key vchPrivKey in
    let nPK := GetPrivKey key in
    let strKey := fold_left (fun strKey b => String.append strKey (strprintf_02x b))
                            nPK EmptyString in
    emit (CallLogPrintf
            (String.append (line "SendAlert pass is the SecretBytes, Private Key Value is:")
                           (line strKey))) ;;;
    ret key
  else
    let '(ok, key) := SetPrivKey key vchPrivKey in
    if negb ok
    then throw (runtime_error
                  (line "Unable to verify alert Private key, check private key?"))
    else emit (CallLogPrintf (line "SendAlert pass is the PrivateKey.")) ;;; ret key.

Definition sendalert (params : Array) (fHelp : bool) : RPC Value :=
  if fHelp || Nat.ltb (List.length params) 7 then throw (usage "sendalert") else
  alert <- sendalert_alert params ;;
  key <- sendalert_key params ;;
  (* Sign the message & set the alert vchSig string... *)
  let '(ok, sig) := Sign key (Hash (vchMsg alert)) in
  let alert := set_vchSig alert sig in
  if negb ok
  then throw (runtime_error (line "Unable to sign alert, check private key?")) else
  ok <- process_alert alert ;;
  if negb ok then throw (runtime_error (line "Failed to process alert.")) else
  emit (CallPrint alert) ;;;
  (* Relay alert to the other nodes *)
  relay_all alert ;;;
  let res : Object := [] in
  let res := push_back res (Pair "AlertID" (Vint (nID alert))) in
  let res := push_back res (Pair "Priority" (Vint (nPriority alert))) in
  let res := push_back res (Pair "Version" (Vint (nVersion alert))) in
  let res := push_back res (Pair "MinVer" (Vint (nMinVer alert))) in
  let res := push_back res (Pair "MaxVer" (Vint (nMaxVer alert))) in
  let res := push_back res (Pair "SubVer"
               (Vstr (SingleAlertSubVersionsString (setSubVer alert)))) in
  let res := push_back res (Pair "RelayUntil" (Vint (nRelayUntil alert))) in
  let res := push_back res (Pair "Expiration" (Vint (nExpiration alert))) in
  let res := push_back res (Pair "StatusBar" (Vstr (strStatusBar alert))) in
  let res := if (0 <? nCancel alert)%Z
             then push_back res (Pair "Cancel" (Vint (nCancel alert))) else res in
  ret (Vobject res).

End Handlers.

(** ** A concrete node

    A small instance of the collaborators and of the global containers, on
    which the handlers can be run. *)

Module Testnet.

Local Open Scope string_scope.

Definition hex_digit (c : ascii) : option N :=
  let n := N_of_ascii c in
  if (48 <=? n)%N && (n <=? 57)%N then Some (n - 48)%N
  else if (97 <=? n)%N && (n <=? 102)%N then Some (n - 87)%N
  else if (65 <=? n)%N && (n <=? 70)%N then Some (n - 55)%N
  else None.

Fixpoint parse_hex (s : string) : list Byte.byte :=
  match s with
  | String a (String b t) =>
      match hex_digit a, hex_digit b with
      | Some x, Some y =>
          match Byte.of_N (16 * x + y) with
          | Some v => v :: parse_hex t
          | None => []
          end
      | _, _ => []
      end
  | _ => []
  end.

Definition host_a : CService := mkCService 167772165 9377.
Definition host_b : CService := mkCService 167772166 9377.
Definition host_c : CService := mkCService 167772167 9377.

Definition lookup (name : string) (portDefault : Z) (fAllowLookup : bool) (nMax : Z)
    : bool * list CService :=
  if String.eqb name "10.0.0.5" then (true, [host_a])
  else if String.eqb name "seed.example" then (true, [host_b; host_c])
  else (false, []).

Definition to_string (a : CService) : string :=
  if CService_eqb a host_a then "10.0.0.5:9377"
  else if CService_eqb a host_b then "10.0.0.6:9377"
  else if CService_eqb a host_c then "10.0.0.7:9377"
  else "[::]:0".

Definition peer (i : Z) (a : CService) (inbound : bool) : CNode :=
  {| id := i; addr := a; fInbound := inbound; fPingQueued := false;
     nSendBytes := 1200; nRecvBytes := 3400; nLastSend := 1400000000;
     nLastRecv := 1400000001; setKnown := [] |}.

Definition network_name (n : nat) : string :=
  nth n [""; "ipv4"; "ipv6"; "tor"; "i2p"] "".

(** A key is usable when its secret is non-empty and its first byte is not
    zero; a full private key is accepted when it is 279 bytes long. *)
Definition key_valid (k : list Byte.byte) : bool :=
  match k with
  | [] => false
  | b :: _ => negb (Byte.eqb b Byte.x00)
  end.

Definition collaborators : Collaborators :=
  {| Lookup := lookup;
     ToString := to_string;
     CNetAddr_ToString := fun a => if N.eqb a (ip host_a) then "10.0.0.5" else "::";
     GetDefaultPort := 9377;
     fNameLookup := true;
     ConnectNode := fun strDest nodes => push_back nodes (peer 99 host_c false);
     NET_MAX := 5;
     NET_UNROUTABLE := 0;
     GetProxy := fun n => if Nat.eqb n 3 then mkProxy true "127.0.0.1:9050"
                          else mkProxy false "";
     GetNetworkName := network_name;
     IsLimited := fun n => Nat.eqb n 2;
     IsReachable := fun n => negb (Nat.eqb n 2);
     mapLocalHost := [(ip host_a, mkLocalServiceInfo 1 9377)];
     nLocalServices := 1;
     GetTimeOffset := 0;
     GetAdjustedTime := 1400000000;
     CLIENT_VERSION := 90400;
     CLIENT_NAME := "Anoncoin";
     PROTOCOL_VERSION := 70008;
     FormatSubVersion := fun name _ _ => "/" ++ name ++ "/";
     strprintf_08x := fun _ => "00000001";
     strprintf_02x := fun _ => "00";
     ParseHex := parse_hex;
     relayfee := Vint 0;
     Serialize := fun alert => Byte.x01 :: nil;
     Hash := fun _ => 7%Z;
     CKey := list Byte.byte;
     CKey_new := [];
     CKey_Set := fun _ vch => vch;
     GetPrivKey := fun k => k;
     SetPrivKey := fun k vch => if Nat.eqb (List.length vch) 279 then (true, vch)
                                else (false, k);
     Sign := fun k _ => if key_valid k then (true, [Byte.x30]) else (false, []);
     ProcessAlert := fun alert m => (true, push_back m (Z.of_nat (List.length m), alert));
     RelayTo := fun alert pnode => pnode
  |}.

Definition expired_alert : CAlert :=
  {| nVersion := 70008; nRelayUntil := 1300000000; nExpiration := 1300000000;
     nID := 7; nCancel := 0; nMinVer := 0; nMaxVer := 999999; setSubVer := [];
     nPriority := 100; strStatusBar := "upgrade required"; vchMsg := []; vchSig := [] |}.

Definition globals : Globals :=
  {| vNodes := [peer 1 host_a false; peer 2 host_c true];
     vAddedNodes := ["10.0.0.5"; "no.such.host"; "seed.example"];
     mapAlerts := [(1%Z, expired_alert)] |}.

Definition empty : Globals := {| vNodes := []; vAddedNodes := []; mapAlerts := [] |}.

(** Parameters of a sendalert call with a one-byte key, which the key
    authority refuses. *)
Definition bad_key_params : Array :=
  [Vstr "upgrade required"; Vstr "00"; Vint 0; Vint 999999; Vstr "/A/B/"; Vint 100; Vint 7].

(** Parameters of a sendalert call with a 32-byte secret and a well-formed
    subversion text. *)
Definition good_params : Array :=
  [Vstr "upgrade required";
   Vstr "0102030405060708091011121314151617181920212223242526272829303132";
   Vint 0; Vint 999999; Vstr "/A/B/"; Vint 100; Vint 7].

(** Parameters of a sendalert call with a 32-byte secret whose first byte is
    zero: the key loads and signs nothing. *)
Definition unsigning_params : Array :=
  [Vstr "upgrade required";
   Vstr "0002030405060708091011121314151617181920212223242526272829303132";
   Vint 0; Vint 999999; Vstr "/A/B/"; Vint 100; Vint 7].

(** Parameters of a sendalert call with a usable key and the empty
    subversion text. *)
Definition any_version_params : Array :=
  [Vstr "upgrade required";
   Vstr "0102030405060708091011121314151617181920212223242526272829303132";
   Vint 0; Vint 999999; Vstr ""; Vint 100; Vint 7].

(** The same node with an alert store that refuses every alert and keeps its
    contents. *)
Definition refusing : Collaborators :=
  {| Lookup := @Lookup collaborators;
     ToString := @ToString collaborators;
     CNetAddr_ToString := @CNetAddr_ToString collaborators;
     GetDefaultPort := @GetDefaultPort collaborators;
     fNameLookup := @fNameLookup collaborators;
     ConnectNode := @ConnectNode collaborators;
     NET_MAX := @NET_MAX collaborators;
     NET_UNROUTABLE := @NET_UNROUTABLE collaborators;
     GetProxy := @GetProxy collaborators;
     GetNetworkName := @GetNetworkName collaborators;
     IsLimited := @IsLimited collaborators;
     IsReachable := @IsReachable collaborators;
     mapLocalHost := @mapLocalHost collaborators;
     nLocalServices := @nLocalServices collaborators;
     GetTimeOffset := @GetTimeOffset collaborators;
     GetAdjustedTime := @GetAdjustedTime collaborators;
     CLIENT_VERSION := @CLIENT_VERSION collaborators;
     CLIENT_NAME := @CLIENT_NAME collaborators;
     PROTOCOL_VERSION := @PROTOCOL_VERSION collaborators;
     FormatSubVersion := @FormatSubVersion collaborators;
     strprintf_08x := @strprintf_08x collaborators;
     strprintf_02x := @strprintf_02x collaborators;
     ParseHex := @ParseHex collaborators;
     relayfee := @relayfee collaborators;
     Serialize := @Serialize collaborators;
     Hash := @Hash collaborators;
     CKey := @CKey collaborators;
     CKey_new := @CKey_new collaborators;
     CKey_Set := @CKey_Set collaborators;
     GetPrivKey := @GetPrivKey collaborators;
     SetPrivKey := @SetPrivKey collaborators;
     Sign := @Sign collaborators;
     ProcessAlert := fun alert m => (false, m);
     RelayTo := @RelayTo collaborators
  |}.

End Testnet.

(** ** The remaining handlers of rpcnet.cpp

    [getconnectioncount], [CopyNodeStats], [getpeerinfo], [getnettotals] and
    [makekeypair], with the collaborators they call. *)

(** [CNodeStats] (net.h, absent): the members getpeerinfo renders.  The two
    ping times are C++ doubles; their type is a parameter. *)
Module CNodeStats.
Record t (double : Type) : Type := mk {
  nodeid : Z;
  nServices : Z;
  nLastSend : Z;
  nLastRecv : Z;
  nTimeConnected : Z;
  addrName : string;
  nVersion : Z;
  cleanSubVer : string;
  fInbound : bool;
  nStartingHeight : Z;
  nSendBytes : Z;
  nRecvBytes : Z;
  fSyncNode : bool;
  dPingTime : double;
  dPingWait : double;
  addrLocal : string
}.
Arguments nodeid {double} _.
Arguments nServices {double} _.
Arguments nLastSend {double} _.
Arguments nLastRecv {double} _.
Arguments nTimeConnected {double} _.
Arguments addrName {double} _.
Arguments nVersion {double} _.
Arguments cleanSubVer {double} _.
Arguments fInbound {double} _.
Arguments nStartingHeight {double} _.
Arguments nSendBytes {double} _.
Arguments nRecvBytes {double} _.
Arguments fSyncNode {double} _.
Arguments dPingTime {double} _.
Arguments dPingWait {double} _.
Arguments addrLocal {double} _.
End CNodeStats.

(** What these handlers call outside rpcnet.cpp.  [MakeNewKey n] is the key
    the generator yields on the call that follows [n] earlier calls of one
    makekeypair request. *)
Class PeerCollaborators `{Collaborators} : Type := {
  (* C++ double and its JSON value *)
  double : Type;
  Value_real : double -> Value;
  double_positive : double -> bool;            (* d > 0.0 *)
  (* net.h / main.h *)
  copyStats : CNode -> CNodeStats.t double;
  GetNodeStateStats : Z -> bool * Z;           (* found, nMisbehavior *)
  strprintf_016x : Z -> string;
  GetTotalBytesRecv : Z;
  GetTotalBytesSent : Z;
  GetTimeMillis : Z;
  (* key.h / base58.h / util.h *)
  CPubKey : Type;
  MakeNewKey : Z -> CKey;
  GetPubKey : CKey -> CPubKey;
  HexStr : CPubKey -> string;
  CAnoncoinSecret_ToString : CKey -> string
}.

Section PeerHandlers.
Context `{PeerCollaborators}.

(** *** getconnectioncount (rpcnet.cpp 23-38) *)

Definition getconnectioncount (params : Array) (fHelp : bool) : RPC Value :=
  if fHelp || negb (Nat.eqb (List.length params) 0)
  then throw (usage "getconnectioncount") else
  nodes <- gets vNodes ;;
  ret (Vint (to_int32 (Z.of_nat (List.length nodes)))).

(** *** CopyNodeStats (rpcnet.cpp 62-73) *)

Definition CopyNodeStats (vstats : list (CNodeStats.t double))
    : RPC (list (CNodeStats.t double)) :=
  let vstats : list (CNodeStats.t double) := [] in   (* vstats.clear() *)
  nodes <- gets vNodes ;;
  ret (fold_left (fun vstats pnode => push_back vstats (copyStats pnode)) nodes vstats).

(** *** getpeerinfo (rpcnet.cpp 75-146) *)

(** Body of the loop over the copied statistics (114-143). *)
Definition peer_info (ret_ : Array) (stats : CNodeStats.t double) : Array :=
  let obj : Object := [] in
  let '(fStateStats, nMisbehavior) := GetNodeStateStats (CNodeStats.nodeid stats) in
  let obj := push_back obj (Pair "addr" (Vstr (CNodeStats.addrName stats))) in
  let obj :=
    if negb (Nat.eqb (String.length (CNodeStats.addrLocal stats)) 0)
    then push_back obj (Pair "addrlocal" (Vstr (CNodeStats.addrLocal stats)))
    else obj in
  let obj := push_back obj (Pair "services"
               (Vstr (strprintf_016x (CNodeStats.nServices stats)))) in
  let obj := push_back obj (Pair "lastsend" (Vint (CNodeStats.nLastSend stats))) in
  let obj := push_back obj (Pair "lastrecv" (Vint (CNodeStats.nLastRecv stats))) in
  let obj := push_back obj (Pair "bytessent" (Vint (CNodeStats.nSendBytes stats))) in
  let obj := push_back obj (Pair "bytesrecv" (Vint (CNodeStats.nRecvBytes stats))) in
  let obj := push_back obj (Pair "conntime" (Vint (CNodeStats.nTimeConnected stats))) in
  let obj := push_back obj (Pair "pingtime" (Value_real (CNodeStats.dPingTime stats))) in
  let obj :=
    if double_positive (CNodeStats.dPingWait stats)
    then push_back obj (Pair "pingwait" (Value_real (CNodeStats.dPingWait stats)))
    else obj in
  let obj := push_back obj (Pair "version" (Vint (CNodeStats.nVersion stats))) in
  (* Use the sanitized form of subver here *)
  let obj := push_back obj (Pair "subver" (Vstr (CNodeStats.cleanSubVer stats))) in
  let obj := push_back obj (Pair "inbound" (Vbool (CNodeStats.fInbound stats))) in
  let obj := push_back obj (Pair "startingheight"
               (Vint (CNodeStats.nStartingHeight stats))) in
  let obj :=
    if fStateStats then push_back obj (Pair "banscore" (Vint nMisbehavior)) else obj in
  let obj := push_back obj (Pair "syncnode" (Vbool (CNodeStats.fSyncNode stats))) in
  push_back ret_ (Vobject obj).

Definition getpeerinfo (params : Array) (fHelp : bool) : RPC Value :=
  if fHelp || negb (Nat.eqb (List.length params) 0) then throw (usage "getpeerinfo") else
  vstats <- CopyNodeStats [] ;;
  let ret_ : Array := [] in
  ret (Varray (fold_left peer_info vstats ret_)).

(** *** getnettotals (rpcnet.cpp 315-338) *)

Definition getnettotals (params : Array) (fHelp : bool) : RPC Value :=
  if fHelp || Nat.ltb 0 (List.length params) then throw (usage "getnettotals") else
  let obj : Object := [] in
  let obj := push_back obj (Pair "totalbytesrecv" (Vint GetTotalBytesRecv)) in
  let obj := push_back obj (Pair "totalbytessent" (Vint GetTotalBytesSent)) in
  let obj := push_back obj (Pair "timemillis" (Vint GetTimeMillis)) in
  ret (Vobject obj).

(** *** makekeypair (rpcnet.cpp 595-624) *)

(** [strPrefix != HexStr(pubkey.begin(), pubkey.end()).substr(0, strPrefix.size())] *)
Definition prefix_differs (strPrefix : string) (pubkey : CPubKey) : bool :=
  negb (String.eqb strPrefix (substr (HexStr pubkey) 0 (size strPrefix))).

(** The do-while loop (610-615):

      do { key.MakeNewKey(false); pubkey = key.GetPubKey(); nCount++; }
      while (nCount < 10000 && strPrefix != HexStr(pubkey).substr(...));

    [fuel] bounds the number of iterations; [None] means the bound was hit
    before the loop left. *)
Fixpoint makekeypair_loop (fuel : nat) (strPrefix : string) (nCount : Z)
    : option (CKey * CPubKey * Z) :=
  match fuel with
  | O => None
  | S fuel' =>
      let key := MakeNewKey nCount in
      let pubkey := GetPubKey key in
      let nCount := to_int32 (nCount + 1) in
      if (nCount <? 10000)%Z && prefix_differs strPrefix pubkey
      then makekeypair_loop fuel' strPrefix nCount
      else Some (key, pubkey, nCount)
  end.

(** The loop leaves within 10000 iterations ([makekeypair_loop_leaves]); the
    [None] branch is not reached. *)
Definition makekeypair (params : Array) (fHelp : bool) : RPC Value :=
  if fHelp || Nat.ltb 1 (List.length params) then throw (usage "makekeypair") else
  strPrefix <- (if Nat.ltb 0 (List.length params) then get_str (param params 0)
                else ret EmptyString) ;;
  match makekeypair_loop (Z.to_nat 10000) strPrefix 0 with
  | None => ret Vnull
  | Some (key, pubkey, nCount) =>
      if prefix_differs strPrefix pubkey then ret Vnull else
      let result : Object := [] in
      let result := push_back result (Pair "PublicKey" (Vstr (HexStr pubkey))) in
      let result := push_back result
                      (Pair "PrivateKey" (Vstr (CAnoncoinSecret_ToString key))) in
      ret (Vobject result)
  end.

End PeerHandlers.

(** A concrete instance of these collaborators over [Testnet]: times are
    whole seconds, a public key is the key itself, and the generator yields
    the one-byte keys 00, 01, 02, ... in turn. *)
Module Testnet2.

Local Open Scope string_scope.

Definition hex_char (n : N) : ascii :=
  if (n <? 10)%N then ascii_of_N (48 + n) else ascii_of_N (87 + n).

Definition hex_str (bytes : list Byte.byte) : string :=
  fold_right
    (fun b s => String (hex_char (Byte.to_N b / 16))
                  (String (hex_char (Byte.to_N b mod 16)) s))
    EmptyString bytes.

Definition nth_key (n : Z) : list Byte.byte :=
  match Byte.of_N (Z.to_N (n mod 256)) with
  | Some b => [b]
  | None => []
  end.

Definition copy_stats (pnode : CNode) : CNodeStats.t Z :=
  {| CNodeStats.nodeid := id pnode;
     CNodeStats.nServices := 1;
     CNodeStats.nLastSend := nLastSend pnode;
     CNodeStats.nLastRecv := nLastRecv pnode;
     CNodeStats.nTimeConnected := 1399990000;
     CNodeStats.addrName := Testnet.to_string (addr pnode);
     CNodeStats.nVersion := 70008;
     CNodeStats.cleanSubVer := "/Anoncoin:0.9.4/";
     CNodeStats.fInbound := fInbound pnode;
     CNodeStats.nStartingHeight := 250000;
     CNodeStats.nSendBytes := nSendBytes pnode;
     CNodeStats.nRecvBytes := nRecvBytes pnode;
     CNodeStats.fSyncNode := Z.eqb (id pnode) 1;
     CNodeStats.dPingTime := 2%Z;
     CNodeStats.dPingWait := if fInbound pnode then 3%Z else 0%Z;
     CNodeStats.addrLocal := if fInbound pnode then "" else "192.168.0.2:9377" |}.

Definition peers : @PeerCollaborators Testnet.collaborators :=
  {| double := Z;
     Value_real := Vint;
     double_positive := fun d => (0 <? d)%Z;
     copyStats := copy_stats;
     GetNodeStateStats := fun nodeid => if Z.eqb nodeid 1 then (true, 20%Z) else (false, 0%Z);
     strprintf_016x := fun _ => "0000000000000001";
     GetTotalBytesRecv := 6800;
     GetTotalBytesSent := 2400;
     GetTimeMillis := 1400000000000;
     CPubKey := list Byte.byte;
     MakeNewKey := nth_key : Z -> @CKey Testnet.collaborators;
     GetPubKey := fun key : @CKey Testnet.collaborators => key : list Byte.byte;
     HexStr := hex_str;
     CAnoncoinSecret_ToString :=
       fun key : @CKey Testnet.collaborators => String.append "secret:" (hex_str key)
  |}.

(** A sendalert parameter list whose subversion text repeats a version and
    is not in order. *)
Definition unordered_params : Array :=
  [Vstr "upgrade required";
   Vstr "0102030405060708091011121314151617181920212223242526272829303132";
   Vint 0; Vint 999999; Vstr "/B/A/B/"; Vint 100; Vint 7].

(** A node on which two live peers, one inbound and registered first, one
    outbound, have the address that 10.0.0.5 resolves to. *)
Definition shared_address : Globals :=
  {| vNodes := [Testnet.peer 1 Testnet.host_b true; Testnet.peer 2 Testnet.host_a true;
                Testnet.peer 3 Testnet.host_a false];
     vAddedNodes := ["10.0.0.5"];
     mapAlerts := [] |}.

End Testnet2.

(** * Vocabulary of the properties

    The words in which the properties below are stated: the fields of a
    JSON object, the entries a listing is expected to hold, the delimited
    spans of a subversion text, and the ways a handler run can end. *)

(** The value stored under [name] in a JSON object ([Vnull] when absent). *)
Fixpoint find_value (obj : Object) (name : string) : Value :=
  match obj with
  | [] => Vnull
  | (n, v) :: rest => if String.eqb n name then v else find_value rest name
  end.

Definition field (v : Value) (name : string) : Value :=
  match v with
  | Vobject obj => find_value obj name
  | _ => Vnull
  end.

Section Vocabulary.
Context `{Collaborators}.

Local Open Scope string_scope.
Local Open Scope list_scope.

Definition AlreadyAdded : Exception :=
  JSONRPCError RPC_CLIENT_NODE_ALREADY_ADDED "Error: Node already added".
Definition NotAdded : Exception :=
  JSONRPCError RPC_CLIENT_NODE_NOT_ADDED "Error: Node has not been added.".

Definition direction (p : CNode) : string :=
  if fInbound p then "inbound" else "outbound".

(** The added nodes whose lookup succeeds, with the addresses found. *)
Definition resolved (names : list string) : list (string * list CService) :=
  flat_map
    (fun s => let '(ok, v) := Lookup s GetDefaultPort fNameLookup 0 in
              if ok then [(s, v)] else [])
    names.

Definition connected_to (nodes : list CNode) (a : CService) : bool :=
  existsb (fun p => CService_eqb (addr p) a) nodes.

Definition address_entry (nodes : list CNode) (a : CService) : Value :=
  Vobject
    [("address", Vstr (ToString a));
     ("connected",
      Vstr match List.find (fun p => CService_eqb (addr p) a) nodes with
           | Some p => direction p
           | None => "false"
           end)].

Definition added_entry (nodes : list CNode) (it : string * list CService) : Value :=
  Vobject
    [("addednode", Vstr (fst it));
     ("connected", Vbool (existsb (connected_to nodes) (snd it)));
     ("addresses", Varray (map (address_entry nodes) (snd it)))].

Definition bare_entry (s : string) : Value := Vobject [("addednode", Vstr s)].

(** What the listing says about one candidate address: the printed address
    and either the text false, when no live peer has this address, or the
    direction of a live peer whose address equals it. *)
Definition reports (nodes : list CNode) (a : CService) (entry : Value) : Prop :=
  exists s,
    entry = Vobject [("address", Vstr (ToString a)); ("connected", Vstr s)]
    /\ ((s = "false" /\ forall p, In p nodes -> addr p <> a)
        \/ (exists p, In p nodes /\ addr p = a /\ s = direction p)).

(** What the listing says about one resolved added node. *)
Definition describes (nodes : list CNode) (it : string * list CService) (e : Value) : Prop :=
  exists c entries,
    e = Vobject [("addednode", Vstr (fst it)); ("connected", Vbool c);
                 ("addresses", Varray entries)]
    /\ Forall2 (reports nodes) (snd it) entries
    /\ (c = true <-> exists a p, In a (snd it) /\ In p nodes /\ addr p = a).

Definition network_entry (n : nat) : Value :=
  Vobject
    [("name", Vstr (GetNetworkName n));
     ("limited", Vbool (IsLimited n));
     ("reachable", Vbool (IsReachable n));
     ("proxy", Vstr (if IsValid (GetProxy n) then ToStringIPPort (GetProxy n) else ""))].

(** The supported transports other than the non-routable one, ascending. *)
Definition routable_networks : list nat :=
  filter (fun n => negb (Nat.eqb n NET_UNROUTABLE)) (seq 0 NET_MAX).

Definition alert_json (alert : CAlert) : Value :=
  Vobject
    [("AlertID", Vint (nID alert));
     ("Priority", Vint (nPriority alert));
     ("MinVer", Vint (nMinVer alert));
     ("MaxVer", Vint (nMaxVer alert));
     ("SubVer", Vstr (SingleAlertSubVersionsString (setSubVer alert)));
     ("RelayUntil", Vint (nRelayUntil alert));
     ("Expiration", Vint (nExpiration alert));
     ("StatusBar", Vstr (strStatusBar alert))].

(** An alert is active at [now] when it has not expired and no unexpired
    stored alert names its identifier as the one to cancel. *)
Definition alert_active (now : Z) (stored : list CAlert) (a : CAlert) : Prop :=
  (now < nExpiration a)%Z
  /\ ~ exists b, In b stored /\ (now < nExpiration b)%Z
                 /\ nCancel b <> 0%Z /\ nCancel b = nID a.

(** Every record of the alerts view renders a stored alert that is active
    at the node's current time. *)
Definition alerts_view_all_active (g : Globals) : Prop :=
  forall obj recs rec_,
    getnetworkinfo [] false g = (Return (Vobject obj), g, []) ->
    find_value obj "alerts" = Varray recs ->
    In rec_ recs ->
    exists a,
      In a (map snd (mapAlerts g)) /\ rec_ = alert_json a
      /\ alert_active GetAdjustedTime (map snd (mapAlerts g)) a.

(** Every element preceded by the separator. *)
Definition prefixed (xs : list string) : string :=
  fold_right (fun x r => String.append " or " (String.append x r)) EmptyString xs.

(** The positions holding [c], ascending; [i] is the position of the head. *)
Fixpoint positions_at (c : ascii) (s : string) (i : Z) : list Z :=
  match s with
  | EmptyString => []
  | String a t =>
      if Ascii.eqb a c then i :: positions_at c t (i + 1)%Z
      else positions_at c t (i + 1)%Z
  end.

Definition delimiters (s : string) : list Z := positions_at "/" s 0.

(** The pairs of neighbours of a list. *)
Fixpoint adjacent {A : Type} (l : list A) : list (A * A) :=
  match l with
  | [] => []
  | a :: t =>
      match t with
      | [] => []
      | b :: _ => (a, b) :: adjacent t
      end
  end.

(** The text from one delimiter up to and including the next one. *)
Definition span (s : string) (ab : Z * Z) : string :=
  substr s (fst ab) (snd ab + 1 - fst ab).

(** The substrings spanning each pair of consecutive delimiters, enclosing
    slashes included. *)
Definition delimited_spans (s : string) : list string :=
  map (span s) (adjacent (delimiters s)).

Definition well_delimited (s : string) : bool :=
  char_is s 0 "/" && char_is s (size s - 1) "/".

Definition InvalidSubversions : Exception :=
  runtime_error (line "Invalid client subversion(s) string, see BIP14 for specifications").

(** A step that neither changes the containers nor calls out. *)
Definition pure {A : Type} (m : RPC A) : Prop := forall g, exists r, m g = (r, g, []).

Definition is_log (c : Call) : Prop :=
  match c with
  | CallLogPrintf _ => True
  | _ => False
  end.

(** The key the handler signs with, as the key authority loads it from the
    raw bytes: a 32-byte secret is set directly, anything else must be
    accepted as an encoded private key. *)
Definition load_key (vchPrivKey : list Byte.byte) : option CKey :=
  if Nat.eqb (List.length vchPrivKey) 32 then Some (CKey_Set CKey_new vchPrivKey)
  else
    let '(ok, key) := SetPrivKey CKey_new vchPrivKey in
    if ok then Some key else None.

(** Key material is valid for signing [hash] when it loads and the loaded
    key signs. *)
Definition signs (vchPrivKey : list Byte.byte) (hash : uint256) : bool :=
  match load_key vchPrivKey with
  | Some key => fst (Sign key hash)
  | None => false
  end.

(** The three ways a sendalert call can end: rejected before the alert
    store is involved, refused by the alert store, or accepted and relayed
    to every live peer. *)
Inductive SendAlertRun (params : Array) (g : Globals)
    : Result Value -> Globals -> list Call -> Prop :=
| RunRejected (e : Exception) (logs : list Call) :
    Forall is_log logs ->
    SendAlertRun params g (Throw e) g logs
| RunRefused (alert : CAlert) (key : CKey) (sig : list Byte.byte) (logs : list Call)
    (m : list (uint256 * CAlert)) :
    sendalert_alert params g = (Return alert, g, []) ->
    sendalert_key params g = (Return key, g, logs) ->
    Sign key (Hash (vchMsg alert)) = (true, sig) ->
    ProcessAlert (set_vchSig alert sig) (mapAlerts g) = (false, m) ->
    SendAlertRun params g
      (Throw (runtime_error (line "Failed to process alert.")))
      (with_mapAlerts (fun _ => m) g)
      (logs ++ [CallProcessAlert (set_vchSig alert sig)])
| RunRelayed (alert : CAlert) (key : CKey) (sig : list Byte.byte) (logs : list Call)
    (m : list (uint256 * CAlert)) (res : Value) :
    sendalert_alert params g = (Return alert, g, []) ->
    sendalert_key params g = (Return key, g, logs) ->
    Sign key (Hash (vchMsg alert)) = (true, sig) ->
    ProcessAlert (set_vchSig alert sig) (mapAlerts g) = (true, m) ->
    SendAlertRun params g
      (Return res)
      (with_vNodes (map (RelayTo (set_vchSig alert sig))) (with_mapAlerts (fun _ => m) g))
      (logs ++ CallProcessAlert (set_vchSig alert sig)
            :: CallPrint (set_vchSig alert sig)
            :: map (fun pnode => CallRelayTo (set_vchSig alert sig) (id pnode)) (vNodes g)).

(** The alert a call hands to the alert store, the log or a peer. *)
Definition carried (c : Call) : option CAlert :=
  match c with
  | CallProcessAlert a => Some a
  | CallPrint a => Some a
  | CallRelayTo a _ => Some a
  | _ => None
  end.

End Vocabulary.

(** ** Further vocabulary *)

(** Whether a JSON object has a pair named [name]. *)
Definition has_key (v : Value) (name : string) : bool :=
  match v with
  | Vobject obj => existsb (fun kv => String.eqb (fst kv) name) obj
  | _ => false
  end.

(** The order of [std::set<std::string>]: byte-wise less-than. *)
Definition str_lt (a b : string) : Prop := String.compare a b = Lt.

(** The value of an optional integer parameter of a call that got past its
    typed accessors: [params[i]] when present, the default otherwise. *)
Definition optional_int (params : Array) (i : nat) (default : Z) : Z :=
  if Nat.ltb i (List.length params) then
    match param params i with
    | Vint n => to_int32 n
    | _ => default
    end
  else default.

(** * Properties *)

Lemma fold_push_back {A B : Type} (f : A -> B) (xs : list A) (acc : list B) :
  fold_left (fun l x => push_back l (f x)) xs acc = acc ++ map f xs.
Proof.
  revert acc; induction xs as [|x xs IH]; intros acc; simpl.
  - now rewrite app_nil_r.
  - rewrite IH. unfold push_back. now rewrite <- app_assoc.
Qed.

Lemma CService_eqb_eq (a b : CService) : CService_eqb a b = true <-> a = b.
Proof.
  unfold CService_eqb. rewrite andb_true_iff, !N.eqb_eq.
  destruct a, b; simpl. split.
  - intros [-> ->]. reflexivity.
  - intros E. inversion E. split; reflexivity.
Qed.

Section Properties.
Context `{Collaborators}.

Local Open Scope string_scope.
Local Open Scope list_scope.

(** ** ping *)

(** C7. The ping handler sets [fPingQueued] on every live peer and changes
    nothing else: it returns null, makes no call to any collaborator (so it
    sends nothing), keeps the added-node list and the alert map, keeps the
    peers and their order, and keeps every other field of every peer. *)
Theorem ping_sets_flag_only (g : Globals) :
  exists nodes',
    ping [] false g =
      (Return Vnull,
       {| vNodes := nodes'; vAddedNodes := vAddedNodes g; mapAlerts := mapAlerts g |},
       [])
    /\ Forall2
         (fun p p' =>
            fPingQueued p' = true /\ id p' = id p /\ addr p' = addr p
            /\ fInbound p' = fInbound p
            /\ nSendBytes p' = nSendBytes p /\ nRecvBytes p' = nRecvBytes p
            /\ nLastSend p' = nLastSend p /\ nLastRecv p' = nLastRecv p
            /\ setKnown p' = setKnown p)
         (vNodes g) nodes'.
Proof.
  exists (map (fun pNode => set_fPingQueued pNode true) (vNodes g)).
  split; [reflexivity|].
  induction (vNodes g) as [|p nodes IH]; simpl; constructor; auto.
  repeat split.
Qed.

(** ** addnode *)

Lemma find_added_absent (x : string) (v : list string) (i : nat) :
  ~ In x v -> find_added x v i = i + List.length v.
Proof.
  revert i; induction v as [|s v IH]; intros i Hn; simpl.
  - lia.
  - destruct (String.eqb_spec x s) as [->|Hne].
    + exfalso. apply Hn. now left.
    + rewrite IH; [lia|]. intros Hin. apply Hn. now right.
Qed.

Lemma find_added_present (x : string) (v : list string) (i : nat) :
  In x v ->
  exists l1 l2, v = l1 ++ x :: l2 /\ ~ In x l1 /\ find_added x v i = i + List.length l1.
Proof.
  revert i; induction v as [|s v IH]; intros i Hin; simpl.
  - destruct Hin.
  - destruct (String.eqb_spec x s) as [->|Hne].
    + exists [], v. simpl. split; [reflexivity|]. split; [tauto|lia].
    + destruct Hin as [->|Hin]; [congruence|].
      destruct (IH (S i) Hin) as (l1 & l2 & -> & Hn & E).
      exists (s :: l1), l2. simpl. split; [reflexivity|]. split.
      * intros [E'|Hin']; [congruence|auto].
      * rewrite E. lia.
Qed.

Lemma erase_middle {A : Type} (l1 l2 : list A) (x : A) :
  erase (l1 ++ x :: l2) (List.length l1) = l1 ++ l2.
Proof.
  unfold erase. induction l1 as [|a l1 IH]; simpl.
  - reflexivity.
  - f_equal. exact IH.
Qed.

Lemma first_occurrence_unique {A : Type} (x : A) (l1 l2 k1 k2 : list A) :
  l1 ++ x :: l2 = k1 ++ x :: k2 -> ~ In x l1 -> ~ In x k1 -> l1 = k1 /\ l2 = k2.
Proof.
  revert k1; induction l1 as [|a l1 IH]; intros [|b k1] E Hl Hk; simpl in *.
  - injection E as E. auto.
  - injection E as Ea Et. subst. exfalso. apply Hk. now left.
  - injection E as Ea Et. subst. exfalso. apply Hl. now left.
  - injection E as Ea Et. subst.
    destruct (IH k1 Et) as [-> ->]; auto.
Qed.

Lemma addnode_add_present (g : Globals) (x : string) :
  In x (vAddedNodes g) ->
  addnode [Vstr x; Vstr "add"] false g =
    (Throw (JSONRPCError RPC_CLIENT_NODE_ALREADY_ADDED "Error: Node already added"), g, []).
Proof.
  intros Hin. destruct (find_added_present x _ 0 Hin) as (l1 & l2 & E & _ & Hf).
  unfold addnode, bind, gets; simpl. rewrite Hf, E, length_app. simpl.
  replace (Nat.eqb _ _) with false; [reflexivity|].
  symmetry. apply Nat.eqb_neq. lia.
Qed.

Lemma addnode_add_absent (g : Globals) (x : string) :
  ~ In x (vAddedNodes g) ->
  addnode [Vstr x; Vstr "add"] false g =
    (Return Vnull, with_vAddedNodes (fun v => v ++ [x]) g, []).
Proof.
  intros Hn. unfold addnode, bind, gets; simpl.
  rewrite (find_added_absent x _ 0 Hn). simpl. rewrite Nat.eqb_refl. reflexivity.
Qed.

Lemma addnode_remove_absent (g : Globals) (x : string) :
  ~ In x (vAddedNodes g) ->
  addnode [Vstr x; Vstr "remove"] false g =
    (Throw (JSONRPCError RPC_CLIENT_NODE_NOT_ADDED "Error: Node has not been added."), g, []).
Proof.
  intros Hn. unfold addnode, bind, gets; simpl.
  rewrite (find_added_absent x _ 0 Hn). simpl. rewrite Nat.eqb_refl. reflexivity.
Qed.

Lemma addnode_remove_present (g : Globals) (x : string) (l1 l2 : list string) :
  vAddedNodes g = l1 ++ x :: l2 -> ~ In x l1 ->
  addnode [Vstr x; Vstr "remove"] false g =
    (Return Vnull, with_vAddedNodes (fun _ => l1 ++ l2) g, []).
Proof.
  intros E Hn. destruct g as [nodes added alerts]; simpl in E; subst added.
  assert (Hin : In x (l1 ++ x :: l2)) by apply in_elt.
  destruct (find_added_present x _ 0 Hin) as (k1 & k2 & E' & Hk & Hf).
  destruct (first_occurrence_unique _ _ _ _ _ E' Hn Hk) as [<- <-].
  unfold addnode, bind, gets; simpl. rewrite Hf, length_app. simpl.
  replace (Nat.eqb _ _) with false by (symmetry; apply Nat.eqb_neq; lia).
  simpl. unfold with_vAddedNodes; simpl. rewrite erase_middle. reflexivity.
Qed.

(** C3. For every target [x]: [addnode x add] fails with the
    node-already-added error and leaves everything unchanged when [x] is in
    the added-node list, and otherwise appends [x], which then occurs exactly
    once; [addnode x remove] fails with the node-not-added error and leaves
    everything unchanged when [x] is absent, and otherwise erases the first
    occurrence of [x] (after which [x] is gone from a duplicate-free list).
    Starting without [x], the sequence add, add, remove, remove answers
    success, already-added, success, not-added, and ends in the initial
    state. *)
Theorem addnode_add_remove (g : Globals) (x : string) :
  (In x (vAddedNodes g) ->
     addnode [Vstr x; Vstr "add"] false g = (Throw AlreadyAdded, g, []))
  /\ (~ In x (vAddedNodes g) ->
     addnode [Vstr x; Vstr "add"] false g
       = (Return Vnull, with_vAddedNodes (fun v => v ++ [x]) g, [])
     /\ count_occ string_dec (vAddedNodes g ++ [x]) x = 1)
  /\ (~ In x (vAddedNodes g) ->
     addnode [Vstr x; Vstr "remove"] false g = (Throw NotAdded, g, []))
  /\ (In x (vAddedNodes g) ->
     exists l1 l2,
       vAddedNodes g = l1 ++ x :: l2 /\ ~ In x l1
       /\ addnode [Vstr x; Vstr "remove"] false g
            = (Return Vnull, with_vAddedNodes (fun _ => l1 ++ l2) g, [])
       /\ (NoDup (vAddedNodes g) -> ~ In x (l1 ++ l2)))
  /\ (~ In x (vAddedNodes g) ->
     exists g1,
       addnode [Vstr x; Vstr "add"] false g = (Return Vnull, g1, [])
       /\ addnode [Vstr x; Vstr "add"] false g1 = (Throw AlreadyAdded, g1, [])
       /\ addnode [Vstr x; Vstr "remove"] false g1 = (Return Vnull, g, [])
       /\ addnode [Vstr x; Vstr "remove"] false g = (Throw NotAdded, g, [])).
Proof.
  split; [apply addnode_add_present|].
  split.
  { intros Hn. split; [now apply addnode_add_absent|].
    rewrite count_occ_app. simpl.
    rewrite (proj1 (count_occ_not_In string_dec _ _) Hn).
    destruct (string_dec x x); [reflexivity|congruence]. }
  split; [apply addnode_remove_absent|].
  split.
  { intros Hin. destruct (find_added_present x _ 0 Hin) as (l1 & l2 & E & Hn & _).
    exists l1, l2. repeat split; auto.
    - now apply addnode_remove_present.
    - rewrite E. intros Hd. apply NoDup_remove_2 in Hd. exact Hd. }
  intros Hn. exists (with_vAddedNodes (fun v => v ++ [x]) g).
  split; [now apply addnode_add_absent|].
  split; [apply addnode_add_present; simpl; apply in_elt|].
  split; [|now apply addnode_remove_absent].
  rewrite (addnode_remove_present _ x (vAddedNodes g) []); auto.
  destruct g as [nodes added alerts]. unfold with_vAddedNodes; simpl.
  now rewrite app_nil_r.
Qed.

(** ** getaddednodeinfo *)

Lemma select_added_present (x : string) (v : list string) :
  In x v -> select_added x v [] = [x].
Proof.
  induction v as [|s v IH]; intros Hin; simpl.
  - destruct Hin.
  - destruct (String.eqb_spec s x) as [->|Hne]; [reflexivity|].
    destruct Hin as [E|Hin]; [congruence|auto].
Qed.

Lemma select_added_absent (x : string) (v : list string) :
  ~ In x v -> select_added x v [] = [].
Proof.
  induction v as [|s v IH]; intros Hn; simpl; [reflexivity|].
  destruct (String.eqb_spec s x) as [->|Hne].
  - exfalso. apply Hn. now left.
  - apply IH. intros Hin. apply Hn. now right.
Qed.

Lemma resolve_added_fold (names : list string) (r : Array)
    (l : list (string * list CService)) :
  fold_left resolve_added names (r, l) = (r, l ++ resolved names).
Proof.
  revert l; induction names as [|s names IH]; intros l; simpl.
  - now rewrite app_nil_r.
  - unfold resolved in *. simpl.
    destruct (Lookup s GetDefaultPort fNameLookup 0) as [[|] v]; simpl.
    + rewrite IH. unfold push_back. now rewrite <- app_assoc.
    + apply IH.
Qed.

Lemma match_peer_find (a : CService) (nodes : list CNode) (ff fc : bool) (node : Object) :
  match_peer a nodes (ff, fc, node) =
    match List.find (fun p => CService_eqb (addr p) a) nodes with
    | Some p => (true, true, node ++ [("connected", Vstr (direction p))])
    | None => (ff, fc, node)
    end.
Proof.
  induction nodes as [|p nodes IH]; simpl; [reflexivity|].
  destruct (CService_eqb (addr p) a); [reflexivity|exact IH].
Qed.

Lemma find_existsb {A : Type} (f : A -> bool) (l : list A) :
  existsb f l = match List.find f l with Some _ => true | None => false end.
Proof.
  induction l as [|x l IH]; simpl; [reflexivity|].
  destruct (f x); [reflexivity|exact IH].
Qed.

Lemma report_address_eq (nodes : list CNode) (fc : bool) (arr : Array) (a : CService) :
  report_address nodes (fc, arr) a
    = (fc || connected_to nodes a, arr ++ [address_entry nodes a]).
Proof.
  unfold report_address, address_entry, connected_to.
  rewrite match_peer_find, find_existsb. simpl.
  destruct (List.find _ nodes) as [p|]; simpl.
  - now rewrite orb_true_r.
  - now rewrite orb_false_r.
Qed.

Lemma report_address_fold (nodes : list CNode) (addrs : list CService)
    (fc : bool) (arr : Array) :
  fold_left (report_address nodes) addrs (fc, arr)
    = (fc || existsb (connected_to nodes) addrs, arr ++ map (address_entry nodes) addrs).
Proof.
  revert fc arr; induction addrs as [|a addrs IH]; intros fc arr;
    cbn [fold_left existsb map].
  - now rewrite orb_false_r, app_nil_r.
  - rewrite report_address_eq, IH, <- app_assoc, orb_assoc. reflexivity.
Qed.

Lemma report_added_fold (nodes : list CNode) (l : list (string * list CService))
    (r : Array) :
  fold_left (report_added nodes) l r = r ++ map (added_entry nodes) l.
Proof.
  revert r; induction l as [|it l IH]; intros r; cbn [fold_left map].
  - now rewrite app_nil_r.
  - rewrite IH. unfold report_added. rewrite report_address_fold. simpl.
    unfold push_back. now rewrite <- app_assoc.
Qed.

Lemma getaddednodeinfo_all (g : Globals) (fDns : bool) :
  getaddednodeinfo [Vbool fDns] false g =
    (Return (Varray (if fDns then map (added_entry (vNodes g)) (resolved (vAddedNodes g))
                     else map bare_entry (vAddedNodes g))), g, []).
Proof.
  unfold getaddednodeinfo, bind, gets, ret; cbn -[fold_left].
  rewrite (fold_push_back (fun s => s)), map_id.
  destruct fDns; cbn -[fold_left].
  - rewrite resolve_added_fold. cbn -[fold_left]. now rewrite report_added_fold.
  - now rewrite (fold_push_back bare_entry).
Qed.

Lemma getaddednodeinfo_one (g : Globals) (fDns : bool) (x : string) :
  In x (vAddedNodes g) ->
  getaddednodeinfo [Vbool fDns; Vstr x] false g =
    (Return (Varray (if fDns then map (added_entry (vNodes g)) (resolved [x])
                     else [bare_entry x])), g, []).
Proof.
  intros Hin. unfold getaddednodeinfo, bind, gets, ret; cbn -[fold_left select_added].
  rewrite (select_added_present _ _ Hin).
  destruct fDns; cbn -[fold_left]; [|reflexivity].
  rewrite (resolve_added_fold [x]). cbn -[fold_left]. now rewrite report_added_fold.
Qed.

Lemma getaddednodeinfo_unknown (g : Globals) (fDns : bool) (x : string) :
  ~ In x (vAddedNodes g) ->
  getaddednodeinfo [Vbool fDns; Vstr x] false g = (Throw NotAdded, g, []).
Proof.
  intros Hn. unfold getaddednodeinfo, bind, gets, ret; simpl.
  now rewrite (select_added_absent _ _ Hn).
Qed.

Lemma resolved_names (names : list string) (it : string * list CService) :
  In it (resolved names) ->
  In (fst it) names /\ Lookup (fst it) GetDefaultPort fNameLookup 0 = (true, snd it).
Proof.
  unfold resolved. rewrite in_flat_map. intros (s & Hs & Hit).
  destruct (Lookup s GetDefaultPort fNameLookup 0) as [[|] v] eqn:E; simpl in Hit.
  - destruct Hit as [<-|[]]. simpl. auto.
  - destruct Hit.
Qed.

Lemma address_entry_reports (nodes : list CNode) (a : CService) :
  reports nodes a (address_entry nodes a).
Proof.
  unfold reports, address_entry.
  destruct (List.find (fun p => CService_eqb (addr p) a) nodes) as [p|] eqn:E.
  - exists (direction p). split; [reflexivity|]. right.
    apply find_some in E. destruct E as [Hin Heq].
    exists p. repeat split; auto. now apply CService_eqb_eq.
  - exists "false". split; [reflexivity|]. left. split; [reflexivity|].
    intros p Hin Heq. apply (find_none _ _ E) in Hin.
    apply CService_eqb_eq in Heq. congruence.
Qed.

Lemma added_entry_describes (nodes : list CNode) (it : string * list CService) :
  describes nodes it (added_entry nodes it).
Proof.
  unfold describes, added_entry.
  exists (existsb (connected_to nodes) (snd it)), (map (address_entry nodes) (snd it)).
  split; [reflexivity|]. split.
  - induction (snd it) as [|a l IH]; simpl; constructor; auto.
    apply address_entry_reports.
  - rewrite existsb_exists. unfold connected_to. split.
    + intros (a & Ha & Hc). apply existsb_exists in Hc. destruct Hc as (p & Hp & Heq).
      exists a, p. repeat split; auto. now apply CService_eqb_eq.
    + intros (a & p & Ha & Hp & Heq). exists a. split; [exact Ha|].
      apply existsb_exists. exists p. split; [exact Hp|]. now apply CService_eqb_eq.
Qed.

Lemma Forall2_map_r {A B : Type} (R : A -> B -> Prop) (f : A -> B) (l : list A) :
  (forall a, R a (f a)) -> Forall2 R l (map f l).
Proof. intros Hf. induction l; simpl; constructor; auto. Qed.

(** C5. Without DNS the listing holds, for each selected added node, an
    object with the target string alone.  With DNS every resolved target is
    listed with its candidate addresses; a candidate is reported connected
    exactly when some live peer's address equals it, and then carries the
    direction of such a peer; the target is connected when one of its
    candidates is. *)
Theorem getaddednodeinfo_views (g : Globals) :
  getaddednodeinfo [Vbool false] false g
    = (Return (Varray (map bare_entry (vAddedNodes g))), g, [])
  /\ (forall x, In x (vAddedNodes g) ->
        getaddednodeinfo [Vbool false; Vstr x] false g
          = (Return (Varray [bare_entry x]), g, []))
  /\ (exists entries,
        getaddednodeinfo [Vbool true] false g = (Return (Varray entries), g, [])
        /\ Forall2 (describes (vNodes g)) (resolved (vAddedNodes g)) entries)
  /\ (forall x, In x (vAddedNodes g) ->
        exists entries,
          getaddednodeinfo [Vbool true; Vstr x] false g = (Return (Varray entries), g, [])
          /\ Forall2 (describes (vNodes g)) (resolved [x]) entries).
Proof.
  split; [apply (getaddednodeinfo_all g false)|].
  split; [intros x Hin; apply (getaddednodeinfo_one g false x Hin)|].
  split.
  - eexists. split; [apply (getaddednodeinfo_all g true)|].
    apply Forall2_map_r, added_entry_describes.
  - intros x Hin. eexists. split; [apply (getaddednodeinfo_one g true x Hin)|].
    apply Forall2_map_r, added_entry_describes.
Qed.

(** A target whose lookup fails has no entry in the DNS listing. *)
Lemma getaddednodeinfo_unresolved_omitted (g : Globals) (x : string) (v : list CService) :
  Lookup x GetDefaultPort fNameLookup 0 = (false, v) ->
  exists entries,
    getaddednodeinfo [Vbool true] false g = (Return (Varray entries), g, [])
    /\ forall e, In e entries -> field e "addednode" <> Vstr x.
Proof.
  intros Hl. eexists. split; [apply (getaddednodeinfo_all g true)|].
  intros e He. apply in_map_iff in He. destruct He as (it & <- & Hit).
  apply resolved_names in Hit. destruct Hit as [_ Hok]. simpl.
  intros E. injection E as E. rewrite E, Hl in Hok. discriminate.
Qed.

(** C6. A try-once request returns null after one call to the connection
    manager; the added-node list and the alert map are what they were, so
    both listings of getaddednodeinfo name the same added nodes as before;
    a target that was not an added node is not listed afterwards, neither
    when asked for by name nor in the full listing. *)
Theorem addnode_onetry_frame (g : Globals) (x : string) :
  exists g',
    addnode [Vstr x; Vstr "onetry"] false g = (Return Vnull, g', [CallConnectNode x])
    /\ vAddedNodes g' = vAddedNodes g
    /\ mapAlerts g' = mapAlerts g
    /\ fst (fst (getaddednodeinfo [Vbool false] false g'))
         = fst (fst (getaddednodeinfo [Vbool false] false g))
    /\ (~ In x (vAddedNodes g) ->
          forall fDns,
            getaddednodeinfo [Vbool fDns; Vstr x] false g' = (Throw NotAdded, g', [])
            /\ exists entries,
                 getaddednodeinfo [Vbool fDns] false g' = (Return (Varray entries), g', [])
                 /\ forall e, In e entries -> field e "addednode" <> Vstr x).
Proof.
  exists (with_vNodes (ConnectNode x) g).
  split; [reflexivity|]. split; [reflexivity|]. split; [reflexivity|].
  split; [now rewrite !getaddednodeinfo_all|].
  intros Hn fDns. split; [now apply getaddednodeinfo_unknown|].
  eexists. split; [apply getaddednodeinfo_all|].
  intros e He E. apply Hn. destruct fDns.
  - apply in_map_iff in He. destruct He as (it & <- & Hit).
    apply resolved_names in Hit. destruct Hit as [Hin _].
    simpl in E. injection E as <-. exact Hin.
  - apply in_map_iff in He. destruct He as (s & <- & Hs).
    simpl in E. injection E as <-. exact Hs.
Qed.

(** ** GetNetworksInfo and getnetworkinfo *)

Lemma network_info_fold (l : list nat) (acc : Array) :
  fold_left network_info l acc
    = acc ++ map network_entry (filter (fun n => negb (Nat.eqb n NET_UNROUTABLE)) l).
Proof.
  revert acc; induction l as [|n l IH]; intros acc; cbn [fold_left filter map].
  - now rewrite app_nil_r.
  - rewrite IH. unfold network_info.
    destruct (Nat.eqb n NET_UNROUTABLE); cbn [negb map]; [reflexivity|].
    unfold push_back, network_entry. simpl. now rewrite <- app_assoc.
Qed.

Lemma GetNetworksInfo_eq : GetNetworksInfo = map network_entry routable_networks.
Proof. unfold GetNetworksInfo. now rewrite network_info_fold. Qed.

Lemma filter_seq_sorted (f : nat -> bool) (len start : nat) :
  StronglySorted lt (filter f (seq start len)).
Proof.
  revert start; induction len as [|len IH]; intros start; simpl.
  - constructor.
  - destruct (f start); [|apply IH].
    constructor; [apply IH|].
    apply Forall_forall. intros n Hn. apply filter_In in Hn. destruct Hn as [Hn _].
    apply in_seq in Hn. lia.
Qed.

Lemma alert_record_fold (l : list (uint256 * CAlert)) (acc : Array) :
  fold_left alert_record l acc = acc ++ map (fun mi => alert_json (snd mi)) l.
Proof.
  revert acc; induction l as [|mi l IH]; intros acc; cbn [fold_left map].
  - now rewrite app_nil_r.
  - rewrite IH. unfold alert_record, alert_json, push_back. simpl.
    now rewrite <- app_assoc.
Qed.

(** The two list-valued fields of the network-info object that are built
    from the transport catalog and from the alert map. *)
Lemma getnetworkinfo_fields (g : Globals) :
  exists obj,
    getnetworkinfo [] false g = (Return (Vobject obj), g, [])
    /\ find_value obj "networkconnections" = Varray GetNetworksInfo
    /\ find_value obj "alerts"
         = Varray (map (fun mi => alert_json (snd mi)) (mapAlerts g)).
Proof.
  unfold getnetworkinfo, bind, gets, ret. cbn -[fold_left GetNetworksInfo].
  eexists. split; [reflexivity|]. split; [reflexivity|].
  cbn -[fold_left]. f_equal.
  destruct (mapAlerts g) as [|mi l]; [reflexivity|].
  cbn [List.length Nat.eqb negb]. now rewrite alert_record_fold.
Qed.

(** C8. The transport description has exactly one entry for each transport
    number below [NET_MAX] other than [NET_UNROUTABLE], in ascending order;
    an entry holds the name, the limited flag, the reachable flag and the
    proxy endpoint, which is the empty string when the proxy is not valid;
    getnetworkinfo returns it in its networkconnections field. *)
Theorem GetNetworksInfo_catalog :
  GetNetworksInfo = map network_entry routable_networks
  /\ NoDup routable_networks
  /\ StronglySorted lt routable_networks
  /\ (forall n, In n routable_networks <-> n < NET_MAX /\ n <> NET_UNROUTABLE)
  /\ (forall n,
        field (network_entry n) "name" = Vstr (GetNetworkName n)
        /\ field (network_entry n) "limited" = Vbool (IsLimited n)
        /\ field (network_entry n) "reachable" = Vbool (IsReachable n)
        /\ field (network_entry n) "proxy"
             = Vstr (if IsValid (GetProxy n) then ToStringIPPort (GetProxy n) else ""))
  /\ (forall g, exists obj,
        getnetworkinfo [] false g = (Return (Vobject obj), g, [])
        /\ find_value obj "networkconnections" = Varray GetNetworksInfo).
Proof.
  split; [apply GetNetworksInfo_eq|].
  split; [apply NoDup_filter, seq_NoDup|].
  split; [apply filter_seq_sorted|].
  split.
  { intros n. unfold routable_networks. rewrite filter_In, in_seq, negb_true_iff.
    rewrite Nat.eqb_neq. lia. }
  split; [intros n; repeat split|].
  intros g. destruct (getnetworkinfo_fields g) as (obj & E & En & _).
  exists obj. auto.
Qed.

(** C2, as the code has it.  The alerts field of the network-info object
    holds one record for every entry of the alert map, in map order, whatever
    its expiration time or cancel id: each record shows the identifier,
    priority, version range, subversions, relay-until and expiration times
    and the status text of the stored alert. *)
Theorem getnetworkinfo_alerts_mirror_store (g : Globals) :
  exists obj,
    getnetworkinfo [] false g = (Return (Vobject obj), g, [])
    /\ find_value obj "alerts"
         = Varray (map (fun mi => alert_json (snd mi)) (mapAlerts g)).
Proof.
  destruct (getnetworkinfo_fields g) as (obj & E & _ & Ea). exists obj. auto.
Qed.

(** ** SingleAlertSubVersionsString *)

Lemma append_assoc (a b c : string) :
  String.append (String.append a b) c = String.append a (String.append b c).
Proof. induction a as [|x a IH]; simpl; [reflexivity|now rewrite IH]. Qed.

Lemma append_empty_r (a : string) : String.append a EmptyString = a.
Proof. induction a as [|x a IH]; simpl; [reflexivity|now rewrite IH]. Qed.

(** Once the accumulated text is non-empty every further element is
    preceded by the separator. *)
Lemma SingleAlertSubVersionsString_tail (xs : list string) (acc : string) :
  acc <> EmptyString ->
  fold_left
    (fun strSetSubVer str =>
       String.append
         (if negb (Nat.eqb (String.length strSetSubVer) 0)
          then String.append strSetSubVer " or " else strSetSubVer) str)
    xs acc
  = String.append acc (prefixed xs).
Proof.
  revert acc; induction xs as [|x xs IH]; intros acc Hacc; cbn [fold_left prefixed fold_right].
  - now rewrite append_empty_r.
  - rewrite IH.
    + destruct acc as [|c acc]; [congruence|]. cbn [String.length Nat.eqb negb].
      now rewrite !append_assoc.
    + destruct acc as [|c acc]; [congruence|]. discriminate.
Qed.

Lemma concat_prefixed (x : string) (xs : list string) :
  String.concat " or " (x :: xs) = String.append x (prefixed xs).
Proof.
  revert x; induction xs as [|y ys IH]; intros x.
  - simpl. now rewrite append_empty_r.
  - change (String.concat " or " (x :: y :: ys))
      with (String.append x (String.append " or " (String.concat " or " (y :: ys)))).
    now rewrite IH.
Qed.

(** When the first element is not the empty string the result is the
    elements joined by the separator. *)
Lemma SingleAlertSubVersionsString_join (x : string) (xs : list string) :
  x <> EmptyString ->
  SingleAlertSubVersionsString (x :: xs) = String.concat " or " (x :: xs).
Proof.
  intros Hx. unfold SingleAlertSubVersionsString. cbn [fold_left].
  cbn [String.length Nat.eqb negb String.append].
  rewrite SingleAlertSubVersionsString_tail by exact Hx.
  now rewrite concat_prefixed.
Qed.

(** ** The subversion set of sendalert *)

Lemma find_at_positions (c : ascii) (s : string) (pos i : Z) :
  find_at c s pos i = hd_error (filter (fun j => (pos <=? j)%Z) (positions_at c s i)).
Proof.
  revert i; induction s as [|a t IH]; intros i; simpl; [reflexivity|].
  destruct (Ascii.eqb a c); simpl.
  - destruct (pos <=? i)%Z; simpl; [reflexivity|apply IH].
  - rewrite andb_false_r. apply IH.
Qed.

Lemma positions_at_range (c : ascii) (s : string) (i : Z) :
  Forall (fun j => (i <= j < i + size s)%Z) (positions_at c s i).
Proof.
  revert i; induction s as [|a t IH]; intros i; simpl; [constructor|].
  assert (Ht : Forall (fun j => (i <= j < i + size (String a t))%Z)
                 (positions_at c t (i + 1))).
  { eapply Forall_impl; [|apply IH]. unfold size. simpl String.length.
    intros j Hj. cbv beta in *. lia. }
  destruct (Ascii.eqb a c); [|exact Ht].
  constructor; [|exact Ht]. unfold size. simpl String.length. lia.
Qed.

Lemma positions_at_sorted (c : ascii) (s : string) (i : Z) :
  StronglySorted Z.lt (positions_at c s i).
Proof.
  revert i; induction s as [|a t IH]; intros i; simpl; [constructor|].
  destruct (Ascii.eqb a c); [|apply IH].
  constructor; [apply IH|].
  eapply Forall_impl; [|apply positions_at_range]. intros j Hj. cbv beta in *. lia.
Qed.

Lemma positions_at_length (c : ascii) (s : string) (i : Z) :
  (List.length (positions_at c s i) <= String.length s)%nat.
Proof.
  revert i; induction s as [|a t IH]; intros i; simpl; [lia|].
  specialize (IH (i + 1)%Z). destruct (Ascii.eqb a c); simpl; lia.
Qed.

(** In an ascending list, searching from just after an element finds the
    elements that follow it. *)
Lemma filter_after (pre rest : list Z) (d : Z) :
  StronglySorted Z.lt (pre ++ d :: rest) ->
  filter (fun j => (d + 1 <=? j)%Z) (pre ++ d :: rest) = rest.
Proof.
  induction pre as [|p pre IH]; intros Hs; simpl.
  - apply StronglySorted_inv in Hs. destruct Hs as [_ Hall].
    replace (d + 1 <=? d)%Z with false by (symmetry; apply Z.leb_gt; lia).
    induction rest as [|r rest IHr]; simpl; [reflexivity|].
    apply Forall_inv in Hall as Hr. apply Forall_inv_tail in Hall.
    replace (d + 1 <=? r)%Z with true by (symmetry; apply Z.leb_le; lia).
    f_equal. apply IHr. exact Hall.
  - apply StronglySorted_inv in Hs. destruct Hs as [Hs Hall].
    assert (p < d)%Z.
    { rewrite Forall_forall in Hall. apply Hall. apply in_elt. }
    replace (d + 1 <=? p)%Z with false by (symmetry; apply Z.leb_gt; lia).
    apply IH. exact Hs.
Qed.

Lemma set_insert_In (x y : string) (l : list string) :
  In x (set_insert y l) <-> x = y \/ In x l.
Proof.
  induction l as [|z l IH]; simpl.
  - intuition.
  - destruct (String.compare y z) eqn:E; simpl.
    + apply String.compare_eq_iff in E. subst z. intuition.
    + intuition.
    + rewrite IH. intuition.
Qed.

Lemma fold_set_insert_In (x : string) (l acc : list string) :
  In x (fold_left (fun set y => set_insert y set) l acc) <-> In x acc \/ In x l.
Proof.
  revert acc; induction l as [|y l IH]; intros acc; simpl.
  - intuition.
  - rewrite IH, set_insert_In. intuition.
Qed.

Lemma wrap64_small (z : Z) : (0 <= z < 2 ^ 64)%Z -> wrap64 z = z.
Proof. intros Hz. unfold wrap64. now apply Z.mod_small. Qed.

(** The loop entered just after the delimiter at [d] inserts the spans of
    the delimiters from [d] on, and leaves. *)
Lemma subver_loop_spec (s : string) (rest : list Z) :
  forall (fuel : nat) (pre : list Z) (d : Z) (acc : list string),
    (size s < 2 ^ 64)%Z ->
    delimiters s = pre ++ d :: rest ->
    (List.length rest < fuel)%nat ->
    subver_loop fuel s (d + 1) acc
      = Some (fold_left (fun set y => set_insert y set)
                        (map (span s) (adjacent (d :: rest))) acc).
Proof.
  induction rest as [|d' rest IH]; intros fuel pre d acc Hsize Hd Hfuel;
    (destruct fuel as [|fuel]; [simpl in Hfuel; lia|]); cbn [subver_loop];
    unfold find; rewrite find_at_positions; fold (delimiters s);
    rewrite Hd, filter_after
      by (rewrite <- Hd; apply positions_at_sorted); cbn [hd_error].
  - reflexivity.
  - pose proof (positions_at_range "/" s 0) as Hr. fold (delimiters s) in Hr.
    pose proof (positions_at_sorted "/" s 0) as Hs. fold (delimiters s) in Hs.
    rewrite Hd in Hr, Hs. rewrite Forall_forall in Hr.
    assert (Hd0 : (0 <= d < size s)%Z) by (apply Hr, in_elt).
    assert (Hd1 : (0 <= d' < size s)%Z).
    { apply Hr. apply in_or_app. right. right. now left. }
    assert (Hlt : (d < d')%Z).
    { clear - Hs. induction pre as [|p pre IHp]; simpl in Hs.
      - apply StronglySorted_inv in Hs. destruct Hs as [_ Hall].
        now apply Forall_inv in Hall.
      - apply StronglySorted_inv in Hs. destruct Hs as [Hs _]. auto. }
    replace (d + 1 - 1)%Z with d by lia.
    rewrite (wrap64_small d) by lia.
    rewrite (wrap64_small (d' + 1)) by lia.
    rewrite (wrap64_small (d' + 1 - d)) by lia.
    rewrite (IH fuel (pre ++ [d]) d' _ Hsize).
    + reflexivity.
    + rewrite Hd, <- app_assoc. reflexivity.
    + simpl in Hfuel. lia.
Qed.

Lemma delimiters_head (s : string) :
  char_is s 0 "/" = true -> exists rest, delimiters s = 0%Z :: rest.
Proof.
  unfold char_is, delimiters. destruct s as [|a t]; simpl; [discriminate|].
  intros E. rewrite E. eexists. reflexivity.
Qed.

(** The loop always leaves within [size + 1] iterations, with exactly the
    delimited spans in the set. *)
Lemma subver_loop_terminates (s : string) :
  (size s < 2 ^ 64)%Z -> char_is s 0 "/" = true ->
  exists setSubVer_,
    subver_loop (S (String.length s)) s 1 [] = Some setSubVer_
    /\ forall x, In x setSubVer_ <-> In x (delimited_spans s).
Proof.
  intros Hsize H0. destruct (delimiters_head s H0) as [rest Hd].
  eexists. split.
  - apply (subver_loop_spec s rest _ [] 0%Z [] Hsize Hd).
    pose proof (positions_at_length "/" s 0) as Hl. fold (delimiters s) in Hl.
    rewrite Hd in Hl. simpl in Hl. lia.
  - intros x. rewrite fold_set_insert_In. unfold delimited_spans. rewrite Hd.
    simpl. intuition.
Qed.

Lemma parse_subvers_cases (s : string) (g : Globals) :
  (size s < 2 ^ 64)%Z ->
  (s = EmptyString -> parse_subvers s g = (Return [], g, []))
  /\ (s <> EmptyString -> well_delimited s = false ->
        parse_subvers s g = (Throw InvalidSubversions, g, []))
  /\ (s <> EmptyString -> well_delimited s = true ->
        exists setSubVer_,
          parse_subvers s g = (Return setSubVer_, g, [])
          /\ forall x, In x setSubVer_ <-> In x (delimited_spans s)).
Proof.
  intros Hsize. split; [intros ->; reflexivity|].
  assert (Hw : s <> EmptyString -> wrap64 (size s - 1) = (size s - 1)%Z).
  { intros Hne. apply wrap64_small. unfold size in *. destruct s; [congruence|].
    simpl String.length in *. lia. }
  split.
  - intros Hne Hwd. unfold parse_subvers. destruct s as [|a t]; [congruence|].
    cbn [String.length Nat.eqb negb]. rewrite (Hw Hne).
    unfold well_delimited in Hwd. rewrite Hwd. reflexivity.
  - intros Hne Hwd. unfold parse_subvers. destruct s as [|a t]; [congruence|].
    cbn [String.length Nat.eqb negb]. rewrite (Hw Hne).
    unfold well_delimited in Hwd. rewrite Hwd.
    apply andb_true_iff in Hwd. destruct Hwd as [H0 _].
    destruct (subver_loop_terminates _ Hsize H0) as (set_ & E & Hin).
    change (S (String.length t)) with (String.length (String a t)).
    rewrite E. exists set_. split; [reflexivity|exact Hin].
Qed.

(** ** sendalert *)

Lemma pure_ret {A : Type} (a : A) : pure (ret a).
Proof. intros g. eexists. reflexivity. Qed.

Lemma pure_throw {A : Type} (e : Exception) : pure (@throw A e).
Proof. intros g. eexists. reflexivity. Qed.

Lemma pure_get_str (v : Value) : pure (get_str v).
Proof. destruct v; simpl; (apply pure_ret || apply pure_throw). Qed.

Lemma pure_get_int (v : Value) : pure (get_int v).
Proof. destruct v; simpl; (apply pure_ret || apply pure_throw). Qed.

Lemma pure_bind {A B : Type} (m : RPC A) (f : A -> RPC B) :
  pure m -> (forall a, pure (f a)) -> pure (bind m f).
Proof.
  intros Hm Hf g. destruct (Hm g) as [r E]. unfold bind. rewrite E.
  destruct r as [a|e].
  - destruct (Hf a g) as [r' E']. rewrite E'. eexists. reflexivity.
  - eexists. reflexivity.
Qed.

Lemma pure_parse_subvers (s : string) : pure (parse_subvers s).
Proof.
  unfold parse_subvers.
  destruct (negb _); [|apply pure_ret].
  destruct (_ && _); [|apply pure_throw].
  destruct (subver_loop _ _ _ _); apply pure_ret.
Qed.

Ltac pure_steps :=
  repeat first
    [ apply pure_ret | apply pure_throw | apply pure_get_str | apply pure_get_int
    | apply pure_parse_subvers
    | apply pure_bind; [|intro]
    | match goal with |- pure (if ?b then _ else _) => destruct b end ].

Lemma pure_sendalert_alert (params : Array) : pure (sendalert_alert params).
Proof. unfold sendalert_alert. pure_steps. Qed.

Lemma bind_pure_Return {A B : Type} (m : RPC A) (f : A -> RPC B)
    (g g' : Globals) (b : B) (c : list Call) :
  pure m -> bind m f g = (Return b, g', c) ->
  exists a, m g = (Return a, g, []) /\ f a g = (Return b, g', c).
Proof.
  intros Hm E. destruct (Hm g) as [r Er]. unfold bind in E. rewrite Er in E.
  destruct r as [a|e]; [|discriminate].
  exists a. split; [exact Er|].
  destruct (f a g) as [[r' g''] c']. simpl in E. exact E.
Qed.

Lemma get_str_Return (v : Value) (g g' : Globals) (s : string) (c : list Call) :
  get_str v g = (Return s, g', c) -> v = Vstr s.
Proof. destruct v; simpl; unfold ret, throw; intros E; inversion E. reflexivity. Qed.

(** The subversion set of the alert built from the parameters is what the
    parsing step made of the fifth parameter. *)
Lemma sendalert_alert_subver (params : Array) (g g' : Globals) (alert : CAlert)
    (c : list Call) :
  sendalert_alert params g = (Return alert, g', c) ->
  exists s, param params 4 = Vstr s
    /\ parse_subvers s g = (Return (setSubVer alert), g, []).
Proof.
  unfold sendalert_alert. intros E.
  apply bind_pure_Return in E; [|apply pure_get_str]. destruct E as (s0 & _ & E).
  apply bind_pure_Return in E; [|apply pure_get_int]. destruct E as (v2 & _ & E).
  apply bind_pure_Return in E; [|apply pure_get_int]. destruct E as (v3 & _ & E).
  apply bind_pure_Return in E; [|apply pure_get_str]. destruct E as (s & Es & E).
  apply bind_pure_Return in E; [|apply pure_parse_subvers]. destruct E as (set_ & Ep & E).
  apply bind_pure_Return in E; [|apply pure_get_int]. destruct E as (v5 & _ & E).
  apply bind_pure_Return in E; [|apply pure_get_int]. destruct E as (v6 & _ & E).
  apply bind_pure_Return in E; [|pure_steps]. destruct E as (v9 & _ & E).
  apply bind_pure_Return in E; [|pure_steps]. destruct E as (v7 & _ & E).
  apply bind_pure_Return in E; [|pure_steps]. destruct E as (v8 & _ & E).
  unfold ret in E. inversion E; subst. simpl.
  exists s. split; [now apply get_str_Return in Es|exact Ep].
Qed.

Lemma sendalert_key_cases (params : Array) (g g' : Globals) (r : Result CKey)
    (c : list Call) :
  sendalert_key params g = (r, g', c) ->
  g' = g /\ Forall is_log c
  /\ forall key, r = Return key ->
       exists k, param params 1 = Vstr k /\ load_key (ParseHex k) = Some key.
Proof.
  unfold sendalert_key, bind. intros E.
  destruct (param params 1) as [| | |k| |]; simpl in E;
    try (inversion E; subst; split; [reflexivity|split; [constructor|discriminate]]).
  destruct (Nat.eqb (List.length (ParseHex k)) 32) eqn:E32.
  - simpl in E. inversion E; subst. split; [reflexivity|split].
    + constructor; [exact I|constructor].
    + intros key Hk. inversion Hk; subst. exists k. unfold load_key. rewrite E32. auto.
  - destruct (SetPrivKey CKey_new (ParseHex k)) as [[|] key'] eqn:Es; simpl in E;
      inversion E; subst; (split; [reflexivity|split]).
    + constructor; [exact I|constructor].
    + intros key Hk. inversion Hk; subst. exists k.
      unfold load_key. rewrite E32, Es. auto.
    + constructor.
    + discriminate.
Qed.

(** A step that returns without a call hands its value to the rest. *)
Lemma bind_step {A B : Type} (m : RPC A) (f : A -> RPC B) (g g' : Globals) (a : A)
    (c : list Call) :
  m g = (Return a, g', c) ->
  bind m f g = (let '(r, g'', c') := f a g' in (r, g'', c ++ c')).
Proof. intros E. unfold bind. rewrite E. reflexivity. Qed.

Lemma bind_pure_step {A B : Type} (m : RPC A) (f : A -> RPC B) (g : Globals) (a : A) :
  m g = (Return a, g, []) -> bind m f g = f a g.
Proof.
  intros E. rewrite (bind_step _ _ _ _ _ _ E). now destruct (f a g) as [[r g''] c'].
Qed.

(** An optional integer parameter of the right type is read, or defaulted. *)
Lemma optional_int_step (params : Array) (i : nat) (d : Z) (g : Globals) :
  (i < List.length params -> exists n, param params i = Vint n) ->
  exists v,
    (if Nat.ltb i (List.length params) then get_int (param params i) else ret d) g
    = (Return v, g, []).
Proof.
  intros Hi. destruct (Nat.ltb i (List.length params)) eqn:E.
  - apply Nat.ltb_lt in E. destruct (Hi E) as [n ->]. eexists. reflexivity.
  - eexists. reflexivity.
Qed.

Lemma arity_met (params : Array) (n : nat) :
  n <= List.length params -> Nat.ltb (List.length params) n = false.
Proof. intros Hn. apply Nat.ltb_ge. exact Hn. Qed.

Lemma sendalert_runs (params : Array) (fHelp : bool) (g g' : Globals)
    (r : Result Value) (calls : list Call) :
  sendalert params fHelp g = (r, g', calls) -> SendAlertRun params g r g' calls.
Proof.
  unfold sendalert. intros E.
  destruct (fHelp || Nat.ltb (List.length params) 7).
  { inversion E; subst. constructor. constructor. }
  unfold bind at 1 in E.
  destruct (pure_sendalert_alert params g) as [ra Ea]. rewrite Ea in E.
  destruct ra as [alert|e]; [|inversion E; subst; constructor; constructor].
  unfold bind at 1 in E.
  destruct (sendalert_key params g) as [[rk gk] logs] eqn:Ek.
  destruct (sendalert_key_cases _ _ _ _ _ Ek) as (-> & Hlogs & _).
  destruct rk as [key|e]; [|inversion E; subst; constructor; exact Hlogs].
  destruct (Sign key (Hash (vchMsg alert))) as [[|] sig] eqn:Es; cbn [negb] in E.
  2:{ unfold throw in E. inversion E; subst. constructor.
      rewrite app_nil_r. exact Hlogs. }
  unfold bind at 1, process_alert in E.
  destruct (ProcessAlert (set_vchSig alert sig) (mapAlerts g)) as [[|] m] eqn:Ep;
    cbn [negb] in E.
  - unfold bind, emit, relay_all, ret in E. cbn -[push_back] in E.
    rewrite app_nil_r in E. inversion E; subst. eapply RunRelayed; eauto.
  - unfold throw in E. cbn in E. inversion E; subst. eapply RunRefused; eauto.
Qed.

Lemma is_log_carries_nothing (logs : list Call) (c : Call) :
  Forall is_log logs -> In c logs -> carried c = None.
Proof.
  intros Hl Hin. rewrite Forall_forall in Hl. specialize (Hl c Hin).
  destruct c; simpl in *; (reflexivity || contradiction).
Qed.

(** Every alert that leaves a sendalert call is the alert built from the
    parameters, signed. *)
Lemma sendalert_carried (params : Array) (fHelp : bool) (g g' : Globals)
    (r : Result Value) (calls : list Call) (c : Call) (a : CAlert) :
  sendalert params fHelp g = (r, g', calls) -> In c calls -> carried c = Some a ->
  exists alert sig,
    sendalert_alert params g = (Return alert, g, []) /\ a = set_vchSig alert sig.
Proof.
  intros E Hin Hc. apply sendalert_runs in E.
  inversion E as [e logs Hl|alert key sig logs m Ea Ek Es Ep
                   |alert key sig logs m res Ea Ek Es Ep]; subst.
  - rewrite (is_log_carries_nothing _ _ Hl Hin) in Hc. discriminate.
  - destruct (sendalert_key_cases _ _ _ _ _ Ek) as (_ & Hl & _).
    apply in_app_or in Hin. destruct Hin as [Hin|[<-|[]]].
    + rewrite (is_log_carries_nothing _ _ Hl Hin) in Hc. discriminate.
    + simpl in Hc. injection Hc as <-. eauto.
  - destruct (sendalert_key_cases _ _ _ _ _ Ek) as (_ & Hl & _).
    apply in_app_or in Hin. destruct Hin as [Hin|[<-|[<-|Hin]]].
    + rewrite (is_log_carries_nothing _ _ Hl Hin) in Hc. discriminate.
    + simpl in Hc. injection Hc as <-. eauto.
    + simpl in Hc. injection Hc as <-. eauto.
    + apply in_map_iff in Hin. destruct Hin as (p & <- & _).
      simpl in Hc. injection Hc as <-. eauto.
Qed.

(** C4. When the private-key parameter is not valid signing key material
    (the key authority does not load it, or the loaded key signs nothing),
    sendalert throws, the containers are unchanged and the only calls made
    are log lines: nothing reaches the alert store or a peer.  Whenever
    sendalert throws, for whatever reason, no peer was relayed to and the
    peers are unchanged.  Each failure after the key is loaded does make the
    call throw: when signing the built alert fails, sendalert throws the
    signing error with the containers unchanged and only the log lines of
    the key step; when signing succeeds and the alert store refuses the
    signed alert, sendalert throws the processing error after that one
    submission, with the peers unchanged and no peer relayed to; and in any
    run in which an alert was submitted that the alert store refuses, the
    result is that error and no peer was relayed to. *)
Theorem sendalert_fails_closed (params : Array) (fHelp : bool) (g : Globals) :
  (forall k,
     param params 1 = Vstr k -> (forall h, signs (ParseHex k) h = false) ->
     exists e logs,
       sendalert params fHelp g = (Throw e, g, logs) /\ Forall is_log logs)
  /\ (forall e g' calls,
        sendalert params fHelp g = (Throw e, g', calls) ->
        vNodes g' = vNodes g
        /\ forall alert peer, ~ In (CallRelayTo alert peer) calls)
  /\ (forall alert key logs sig,
        fHelp = false -> 7 <= List.length params ->
        sendalert_alert params g = (Return alert, g, []) ->
        sendalert_key params g = (Return key, g, logs) ->
        Sign key (Hash (vchMsg alert)) = (false, sig) ->
        sendalert params fHelp g
          = (Throw (runtime_error (line "Unable to sign alert, check private key?")),
             g, logs)
        /\ Forall is_log logs)
  /\ (forall alert key logs sig m,
        fHelp = false -> 7 <= List.length params ->
        sendalert_alert params g = (Return alert, g, []) ->
        sendalert_key params g = (Return key, g, logs) ->
        Sign key (Hash (vchMsg alert)) = (true, sig) ->
        ProcessAlert (set_vchSig alert sig) (mapAlerts g) = (false, m) ->
        sendalert params fHelp g
          = (Throw (runtime_error (line "Failed to process alert.")),
             with_mapAlerts (fun _ => m) g,
             logs ++ [CallProcessAlert (set_vchSig alert sig)])
        /\ Forall is_log logs
        /\ vNodes (with_mapAlerts (fun _ => m) g) = vNodes g)
  /\ (forall r g' calls alert,
        sendalert params fHelp g = (r, g', calls) ->
        In (CallProcessAlert alert) calls ->
        fst (ProcessAlert alert (mapAlerts g)) = false ->
        r = Throw (runtime_error (line "Failed to process alert."))
        /\ vNodes g' = vNodes g
        /\ forall a peer, ~ In (CallRelayTo a peer) calls).
Proof.
  split; [|split; [|split; [|split]]].
  - intros k Hk Hbad.
    destruct (sendalert params fHelp g) as [[r g'] calls] eqn:E.
    apply sendalert_runs in E.
    assert (Hno : forall alert key sig logs,
               sendalert_key params g = (Return key, g, logs) ->
               Sign key (Hash (vchMsg alert)) = (true, sig) -> False).
    { intros alert key sig logs Ek Es.
      destruct (sendalert_key_cases _ _ _ _ _ Ek) as (_ & _ & Hload).
      destruct (Hload key eq_refl) as (k' & Hk' & Hl).
      rewrite Hk in Hk'. injection Hk' as <-.
      specialize (Hbad (Hash (vchMsg alert))). unfold signs in Hbad.
      rewrite Hl, Es in Hbad. discriminate. }
    inversion E as [e logs Hl|alert key sig logs m Ea Ek Es Ep
                     |alert key sig logs m res Ea Ek Es Ep]; subst.
    + exists e, calls. auto.
    + exfalso. eapply Hno; eauto.
    + exfalso. eapply Hno; eauto.
  - intros e g' calls E. apply sendalert_runs in E.
    inversion E as [e' logs Hl|alert key sig logs m Ea Ek Es Ep| ]; subst.
    + split; [reflexivity|]. intros alert peer Hin.
      pose proof (is_log_carries_nothing _ _ Hl Hin). discriminate.
    + split; [reflexivity|]. intros a peer Hin.
      destruct (sendalert_key_cases _ _ _ _ _ Ek) as (_ & Hl & _).
      apply in_app_or in Hin. destruct Hin as [Hin|[Hin|[]]].
      * pose proof (is_log_carries_nothing _ _ Hl Hin). discriminate.
      * discriminate.
  - intros alert key logs sig -> Hlen Ea Ek Es.
    destruct (sendalert_key_cases _ _ _ _ _ Ek) as (_ & Hl & _).
    split; [|exact Hl].
    unfold sendalert. rewrite (arity_met _ _ Hlen). cbn [orb].
    rewrite (bind_step _ _ _ _ _ _ Ea), (bind_step _ _ _ _ _ _ Ek), Es.
    cbn [negb]. unfold throw. now rewrite app_nil_r.
  - intros alert key logs sig m -> Hlen Ea Ek Es Ep.
    destruct (sendalert_key_cases _ _ _ _ _ Ek) as (_ & Hl & _).
    split; [|split; [exact Hl|reflexivity]].
    unfold sendalert. rewrite (arity_met _ _ Hlen). cbn [orb].
    rewrite (bind_step _ _ _ _ _ _ Ea), (bind_step _ _ _ _ _ _ Ek), Es.
    cbn [negb]. unfold bind, process_alert. rewrite Ep. reflexivity.
  - intros r g' calls a E Hin Hrefused. apply sendalert_runs in E.
    inversion E as [e logs Hl|alert key sig logs m Ea Ek Es Ep
                     |alert key sig logs m res Ea Ek Es Ep]; subst.
    + pose proof (is_log_carries_nothing _ _ Hl Hin). discriminate.
    + destruct (sendalert_key_cases _ _ _ _ _ Ek) as (_ & Hl & _).
      split; [reflexivity|]. split; [reflexivity|].
      intros a' peer Hr. apply in_app_or in Hr. destruct Hr as [Hr|[Hr|[]]].
      * pose proof (is_log_carries_nothing _ _ Hl Hr). discriminate.
      * discriminate.
    + exfalso. destruct (sendalert_key_cases _ _ _ _ _ Ek) as (_ & Hl & _).
      apply in_app_or in Hin. destruct Hin as [Hin|[Hin|[Hin|Hin]]].
      * pose proof (is_log_carries_nothing _ _ Hl Hin). discriminate.
      * injection Hin as <-. rewrite Ep in Hrefused. discriminate.
      * discriminate.
      * apply in_map_iff in Hin. destruct Hin as (? & ? & _). discriminate.
Qed.

(** C10. For a fifth parameter [s]: when [s] is non-empty and does not both
    begin and end with a slash, sendalert throws, nothing is changed and no
    call is made; otherwise parsing succeeds and yields exactly the
    substrings spanning consecutive slashes, enclosing slashes included, and
    every alert that sendalert hands to the alert store, the log or a peer
    has that set as its subversion set, the empty set when [s] is empty.
    The text /A/B/ yields /A/ and /B/.  The empty text is accepted: parsing
    it returns the empty set without a call; and whenever [s] is empty or
    begins and ends with a slash and the other parameters have the types the
    handler reads them at, the alert is built, with the empty subversion set
    when [s] is empty and the spans of [s] otherwise. *)
Theorem sendalert_subversion_set (params : Array) (fHelp : bool) (g : Globals)
    (s : string) :
  param params 4 = Vstr s -> (size s < 2 ^ 64)%Z ->
  (s <> EmptyString -> well_delimited s = false ->
     exists e, sendalert params fHelp g = (Throw e, g, []))
  /\ (s <> EmptyString -> well_delimited s = true ->
        exists setSubVer_,
          parse_subvers s g = (Return setSubVer_, g, [])
          /\ forall x, In x setSubVer_ <-> In x (delimited_spans s))
  /\ (forall r g' calls c alert,
        sendalert params fHelp g = (r, g', calls) ->
        In c calls -> carried c = Some alert ->
        (s = EmptyString -> setSubVer alert = [])
        /\ (s <> EmptyString ->
              well_delimited s = true
              /\ forall x, In x (setSubVer alert) <-> In x (delimited_spans s)))
  /\ delimited_spans "/A/B/" = ["/A/"; "/B/"]
  /\ (s = EmptyString -> parse_subvers s g = (Return [], g, []))
  /\ (s = EmptyString \/ well_delimited s = true ->
        (exists t, param params 0 = Vstr t) ->
        (forall i, In i [2; 3; 5; 6] -> exists n, param params i = Vint n) ->
        (forall i, In i [7; 8; 9] -> i < List.length params ->
                   exists n, param params i = Vint n) ->
        exists alert,
          sendalert_alert params g = (Return alert, g, [])
          /\ (s = EmptyString -> setSubVer alert = [])
          /\ forall x, In x (setSubVer alert) <-> In x (delimited_spans s)).
Proof.
  intros Hs Hsize.
  destruct (parse_subvers_cases s g Hsize) as (Hempty & Hbad & Hgood).
  split.
  { intros Hne Hwd. unfold sendalert.
    destruct (fHelp || Nat.ltb (List.length params) 7); [eexists; reflexivity|].
    unfold bind at 1. destruct (pure_sendalert_alert params g) as [ra Ea]. rewrite Ea.
    destruct ra as [alert|e]; [|eexists; reflexivity].
    apply sendalert_alert_subver in Ea. destruct Ea as (s' & Hs' & Ep).
    rewrite Hs in Hs'. injection Hs' as <-.
    rewrite (Hbad Hne Hwd) in Ep. discriminate. }
  split; [exact Hgood|].
  split; [|split; [reflexivity|split; [exact Hempty|]]].
  - intros r g' calls c a E Hin Hc.
    destruct (sendalert_carried _ _ _ _ _ _ _ _ E Hin Hc) as (alert & sig & Ea & ->).
    apply sendalert_alert_subver in Ea. destruct Ea as (s' & Hs' & Ep).
    rewrite Hs in Hs'. injection Hs' as <-. simpl.
    split.
    + intros Hnil. rewrite (Hempty Hnil) in Ep. now injection Ep as <-.
    + intros Hne. destruct (well_delimited s) eqn:Hwd.
      * split; [reflexivity|].
        destruct (Hgood Hne eq_refl) as (set_ & Eg & Hiff).
        rewrite Eg in Ep. now injection Ep as <-.
      * rewrite (Hbad Hne eq_refl) in Ep. discriminate.
  - intros Hok (t & Ht) Hints Hopt.
    assert (Hparse : exists set_,
               parse_subvers s g = (Return set_, g, [])
               /\ (s = EmptyString -> set_ = [])
               /\ forall x, In x set_ <-> In x (delimited_spans s)).
    { destruct s as [|a s'] eqn:Es.
      - exists []. split; [now apply Hempty|]. split; [reflexivity|]. reflexivity.
      - destruct Hok as [Hok|Hok]; [discriminate|].
        destruct (Hgood ltac:(discriminate) Hok) as (set_ & Eg & Hiff).
        exists set_. split; [exact Eg|]. split; [discriminate|exact Hiff]. }
    destruct Hparse as (set_ & Eg & Hnil & Hiff).
    destruct (Hints 2 ltac:(simpl; tauto)) as [n2 E2].
    destruct (Hints 3 ltac:(simpl; tauto)) as [n3 E3].
    destruct (Hints 5 ltac:(simpl; tauto)) as [n5 E5].
    destruct (Hints 6 ltac:(simpl; tauto)) as [n6 E6].
    destruct (optional_int_step params 9 0%Z g (Hopt 9 ltac:(simpl; tauto))) as [v9 E9].
    destruct (optional_int_step params 7 365%Z g (Hopt 7 ltac:(simpl; tauto))) as [v7 E7].
    destruct (optional_int_step params 8 365%Z g (Hopt 8 ltac:(simpl; tauto))) as [v8 E8].
    unfold sendalert_alert.
    rewrite Ht, E2, E3, Hs, E5, E6.
    rewrite (bind_pure_step _ _ g t eq_refl).
    rewrite (bind_pure_step _ _ g (to_int32 n2) eq_refl).
    rewrite (bind_pure_step _ _ g (to_int32 n3) eq_refl).
    rewrite (bind_pure_step _ _ g s eq_refl).
    rewrite (bind_pure_step _ _ g set_ Eg).
    rewrite (bind_pure_step _ _ g (to_int32 n5) eq_refl).
    rewrite (bind_pure_step _ _ g (to_int32 n6) eq_refl).
    rewrite (bind_pure_step _ _ g v9 E9).
    rewrite (bind_pure_step _ _ g v7 E7).
    rewrite (bind_pure_step _ _ g v8 E8).
    eexists. split; [reflexivity|]. split; [exact Hnil|exact Hiff].
Qed.

End Properties.

(** * Runs on the concrete node *)

Section Runs.

Local Open Scope string_scope.
Local Open Scope list_scope.

Import Testnet.

(** C1. On the concrete node the added-node list holds a target whose
    lookup fails.  The DNS listing has entries for the two other targets
    only, and asking for the failing target by name yields an empty array:
    the entry built for it at lines 274-278 is never appended. *)
Theorem getaddednodeinfo_drops_unresolved :
  In "no.such.host" (vAddedNodes globals)
  /\ fst (@Lookup collaborators "no.such.host" (@GetDefaultPort collaborators)
              (@fNameLookup collaborators) 0) = false
  /\ (exists entries,
        @getaddednodeinfo collaborators [Vbool true] false globals
          = (Return (Varray entries), globals, [])
        /\ map (fun e => field e "addednode") entries
             = [Vstr "10.0.0.5"; Vstr "seed.example"])
  /\ @getaddednodeinfo collaborators [Vbool true; Vstr "no.such.host"] false globals
       = (Return (Varray []), globals, []).
Proof.
  split; [simpl; tauto|]. split; [reflexivity|].
  split; [eexists; split; reflexivity|reflexivity].
Qed.

(** Counterexample to C2 as stated: the alert stored on the concrete node
    expired at 1300000000, the clock reads 1400000000, and getnetworkinfo
    lists it. *)
Lemma getnetworkinfo_lists_expired_alert :
  ~ @alerts_view_all_active collaborators globals.
Proof.
  intros Hall.
  destruct (Hall _ _ (alert_json expired_alert) eq_refl eq_refl (or_introl eq_refl))
    as (a & Hin & _ & Hactive & _).
  destruct Hin as [<-|[]]. vm_compute in Hactive. discriminate.
Qed.

(** C9. A set whose least element is the empty string: the separator before
    the second element is missing, so the result is not the join of the
    elements. *)
Theorem SingleAlertSubVersionsString_empty_element :
  set_insert "" (set_insert "A" []) = [""; "A"]
  /\ SingleAlertSubVersionsString [""; "A"] = "A"
  /\ String.concat " or " [""; "A"] = " or A"
  /\ SingleAlertSubVersionsString [""; "A"] <> String.concat " or " [""; "A"].
Proof.
  split; [reflexivity|]. split; [reflexivity|]. split; [reflexivity|].
  vm_compute. discriminate.
Qed.

(** The add, add, remove, remove scenario for 10.0.0.5 on a node without
    added nodes. *)
Lemma addnode_add_remove_witness :
  ~ In "10.0.0.5" (vAddedNodes empty)
  /\ exists g1,
       @addnode collaborators [Vstr "10.0.0.5"; Vstr "add"] false empty
         = (Return Vnull, g1, [])
       /\ @addnode collaborators [Vstr "10.0.0.5"; Vstr "add"] false g1
            = (Throw AlreadyAdded, g1, [])
       /\ @addnode collaborators [Vstr "10.0.0.5"; Vstr "remove"] false g1
            = (Return Vnull, empty, [])
       /\ @addnode collaborators [Vstr "10.0.0.5"; Vstr "remove"] false empty
            = (Throw NotAdded, empty, []).
Proof.
  assert (Hn : ~ In "10.0.0.5" (vAddedNodes empty)) by (simpl; tauto).
  split; [exact Hn|].
  exact (proj2 (proj2 (proj2 (proj2
           (@addnode_add_remove collaborators empty "10.0.0.5")))) Hn).
Defined.

(** The DNS listing of the added node seed.example, which resolves to two
    addresses, one of them held by an inbound peer. *)
Lemma getaddednodeinfo_views_witness :
  In "seed.example" (vAddedNodes globals)
  /\ exists entries,
       @getaddednodeinfo collaborators [Vbool true; Vstr "seed.example"] false globals
         = (Return (Varray entries), globals, [])
       /\ Forall2 (@describes collaborators (vNodes globals))
                  (@resolved collaborators ["seed.example"]) entries.
Proof.
  assert (Hin : In "seed.example" (vAddedNodes globals)) by (simpl; tauto).
  split; [exact Hin|].
  exact (proj2 (proj2 (proj2 (@getaddednodeinfo_views collaborators globals)))
               "seed.example" Hin).
Defined.

(** A try-once request for 10.0.0.9, which is not an added node. *)
Lemma addnode_onetry_frame_witness :
  ~ In "10.0.0.9" (vAddedNodes globals)
  /\ exists g',
       @addnode collaborators [Vstr "10.0.0.9"; Vstr "onetry"] false globals
         = (Return Vnull, g', [CallConnectNode "10.0.0.9"])
       /\ vAddedNodes g' = vAddedNodes globals
       /\ forall fDns,
            @getaddednodeinfo collaborators [Vbool fDns; Vstr "10.0.0.9"] false g'
              = (Throw NotAdded, g', []).
Proof.
  assert (Hn : ~ In "10.0.0.9" (vAddedNodes globals)) by (simpl; intuition discriminate).
  split; [exact Hn|].
  destruct (@addnode_onetry_frame collaborators globals "10.0.0.9")
    as (g' & E & Ha & _ & _ & Hl).
  exists g'. split; [exact E|]. split; [exact Ha|].
  intros fDns. exact (proj1 (Hl Hn fDns)).
Defined.

(** A sendalert call whose key parameter is the single byte 00; a call whose
    32-byte secret signs nothing; and a call with a usable key at a node
    whose alert store refuses the alert. *)
Lemma sendalert_fails_closed_witness :
  param bad_key_params 1 = Vstr "00"
  /\ (forall h, @signs collaborators (@ParseHex collaborators "00") h = false)
  /\ (exists e logs,
        @sendalert collaborators bad_key_params false globals = (Throw e, globals, logs)
        /\ Forall is_log logs)
  /\ (exists logs,
        @sendalert collaborators unsigning_params false globals
          = (Throw (runtime_error (line "Unable to sign alert, check private key?")),
             globals, logs)
        /\ Forall is_log logs)
  /\ (exists alert logs,
        @sendalert refusing good_params false globals
          = (Throw (runtime_error (line "Failed to process alert.")),
             globals, logs ++ [CallProcessAlert alert])
        /\ Forall is_log logs)
  /\ (forall r g' calls,
        @sendalert refusing good_params false globals = (r, g', calls) ->
        r = Throw (runtime_error (line "Failed to process alert."))
        /\ vNodes g' = vNodes globals
        /\ forall a peer, ~ In (CallRelayTo a peer) calls).
Proof.
  assert (Hbad : forall h, @signs collaborators (@ParseHex collaborators "00") h = false)
    by (intros h; reflexivity).
  split; [reflexivity|]. split; [exact Hbad|].
  split; [|split; [|split]].
  - exact (proj1 (@sendalert_fails_closed collaborators bad_key_params false globals)
                 "00" eq_refl Hbad).
  - destruct (@sendalert_fails_closed collaborators unsigning_params false globals)
      as (_ & _ & Hsign & _).
    eexists.
    eapply Hsign; [reflexivity|apply le_n|reflexivity|reflexivity|reflexivity].
  - destruct (@sendalert_fails_closed refusing good_params false globals)
      as (_ & _ & _ & Hrefused & _).
    edestruct Hrefused as (E & Hl & _);
      [reflexivity|apply le_n|reflexivity|reflexivity|reflexivity|reflexivity|].
    eexists. eexists. split; [exact E|exact Hl].
  - intros r g' calls E.
    destruct (@sendalert_fails_closed refusing good_params false globals)
      as (_ & _ & _ & _ & Hany).
    assert (Hin : exists alert,
               In (CallProcessAlert alert) calls
               /\ fst (@ProcessAlert refusing alert (mapAlerts globals)) = false).
    { vm_compute in E. injection E as _ _ <-.
      eexists. split; [right; left; reflexivity|reflexivity]. }
    destruct Hin as (alert & Hin & Hno).
    exact (Hany r g' calls alert E Hin Hno).
Defined.

(** A sendalert call with the subversion text /A/B/ and a usable key: the
    alert handed to the alert store carries the two spans.  The same call
    with the empty text: the alert handed to the alert store has the empty
    subversion set. *)
Lemma sendalert_subversion_set_witness :
  param good_params 4 = Vstr "/A/B/"
  /\ (size "/A/B/" < 2 ^ 64)%Z
  /\ (exists alert,
        In (CallProcessAlert alert)
           (snd (@sendalert collaborators good_params false globals))
        /\ forall x, In x (setSubVer alert) <-> In x ["/A/"; "/B/"])
  /\ param any_version_params 4 = Vstr ""
  /\ (size "" < 2 ^ 64)%Z
  /\ parse_subvers "" globals = (Return [], globals, [])
  /\ (exists alert,
        In (CallProcessAlert alert)
           (snd (@sendalert collaborators any_version_params false globals))
        /\ setSubVer alert = []).
Proof.
  split; [reflexivity|]. split; [reflexivity|].
  split; [|split; [reflexivity|split; [reflexivity|]]].
  - destruct (@sendalert_subversion_set collaborators good_params false globals "/A/B/"
                eq_refl eq_refl) as (_ & _ & Hcarried & Hspans & _).
    destruct (@sendalert collaborators good_params false globals) as [[r g'] calls] eqn:E.
    assert (Hin : exists alert, In (CallProcessAlert alert) calls).
    { vm_compute in E. injection E as _ _ <-. eexists. right. left. reflexivity. }
    destruct Hin as [alert Hin]. exists alert. split; [exact Hin|].
    rewrite <- Hspans.
    apply (Hcarried r g' calls (CallProcessAlert alert) alert eq_refl Hin eq_refl).
    discriminate.
  - destruct (@sendalert_subversion_set collaborators any_version_params false globals ""
                eq_refl eq_refl) as (_ & _ & Hcarried & _ & Hparse & _).
    split; [exact (Hparse eq_refl)|].
    destruct (@sendalert collaborators any_version_params false globals)
      as [[r g'] calls] eqn:E.
    assert (Hin : exists alert, In (CallProcessAlert alert) calls).
    { vm_compute in E. injection E as _ _ <-. eexists. right. left. reflexivity. }
    destruct Hin as [alert Hin]. exists alert. split; [exact Hin|].
    apply (Hcarried r g' calls (CallProcessAlert alert) alert eq_refl Hin eq_refl).
    reflexivity.
Defined.

(** The transport description of the concrete node: transports 1 to 4. *)
Lemma GetNetworksInfo_catalog_witness :
  @routable_networks collaborators = [1; 2; 3; 4]
  /\ @GetNetworksInfo collaborators
       = map (@network_entry collaborators) (@routable_networks collaborators).
Proof.
  split; [reflexivity|]. exact (proj1 (@GetNetworksInfo_catalog collaborators)).
Defined.

End Runs.

(** * Further properties *)

Lemma Forall2_flat_map_one {A B : Type} (R : A -> B -> Prop) (f : A -> list B)
    (l : list A) :
  (forall a, exists b, f a = [b] /\ R a b) -> Forall2 R l (flat_map f l).
Proof.
  intros Hf. induction l as [|a l IH]; simpl; [constructor|].
  destruct (Hf a) as (b & -> & Hb). simpl. constructor; assumption.
Qed.

Lemma filter_seq_length (u len start : nat) :
  List.length (filter (fun n => negb (Nat.eqb n u)) (seq start len))
    = if Nat.leb start u && Nat.ltb u (start + len) then len - 1 else len.
Proof.
  revert start; induction len as [|len IH]; intros start.
  - simpl. now destruct (Nat.leb start u && Nat.ltb u (start + 0)).
  - cbn [seq filter]. specialize (IH (S start)).
    destruct (Nat.leb_spec (S start) u); destruct (Nat.leb_spec start u);
      destruct (Nat.ltb_spec u (S start + len)); destruct (Nat.ltb_spec u (start + S len));
      cbn [andb] in *; try lia;
      destruct (Nat.eqb_spec start u); cbn [negb List.length]; lia.
Qed.

Section FurtherProperties.
Context `{PeerCollaborators}.

Local Open Scope string_scope.
Local Open Scope list_scope.

(** ** getpeerinfo, getconnectioncount *)

Lemma peer_info_app (acc : Array) (stats : CNodeStats.t double) :
  peer_info acc stats = acc ++ peer_info [] stats.
Proof.
  unfold peer_info. destruct (GetNodeStateStats _) as [fStateStats n]. reflexivity.
Qed.

Lemma peer_info_fold (l : list (CNodeStats.t double)) (acc : Array) :
  fold_left peer_info l acc = acc ++ flat_map (peer_info []) l.
Proof.
  revert acc; induction l as [|st l IH]; intros acc; cbn [fold_left flat_map].
  - now rewrite app_nil_r.
  - rewrite IH, (peer_info_app acc st), <- app_assoc. reflexivity.
Qed.

Lemma getpeerinfo_eq (g : Globals) :
  getpeerinfo [] false g
    = (Return (Varray (flat_map (fun pnode => peer_info [] (copyStats pnode)) (vNodes g))),
       g, []).
Proof.
  unfold getpeerinfo, CopyNodeStats, bind, gets, ret. cbn -[fold_left].
  rewrite (fold_push_back copyStats), peer_info_fold. cbn [app].
  rewrite flat_map_concat_map, map_map, <- flat_map_concat_map. reflexivity.
Qed.

Lemma peer_info_length (nodes : list CNode) :
  List.length (flat_map (fun pnode => peer_info [] (copyStats pnode)) nodes)
    = List.length nodes.
Proof.
  induction nodes as [|p l IH]; [reflexivity|].
  cbn [flat_map]. rewrite length_app, IH.
  unfold peer_info. destruct (GetNodeStateStats _) as [b m]. reflexivity.
Qed.

(** X1. getpeerinfo returns one object per live peer, in registration
    order, built from that peer's copied statistics: it shows the address
    name, services, send and receive times and byte counts, connection time,
    ping time, version, sanitized subversion, direction, starting height and
    sync flag of the peer.  Nothing is changed and nothing is called. *)
Theorem getpeerinfo_one_per_peer (g : Globals) :
  exists entries,
    getpeerinfo [] false g = (Return (Varray entries), g, [])
    /\ Forall2
         (fun pnode e =>
            let stats := copyStats pnode in
            field e "addr" = Vstr (CNodeStats.addrName stats)
            /\ field e "services" = Vstr (strprintf_016x (CNodeStats.nServices stats))
            /\ field e "lastsend" = Vint (CNodeStats.nLastSend stats)
            /\ field e "lastrecv" = Vint (CNodeStats.nLastRecv stats)
            /\ field e "bytessent" = Vint (CNodeStats.nSendBytes stats)
            /\ field e "bytesrecv" = Vint (CNodeStats.nRecvBytes stats)
            /\ field e "conntime" = Vint (CNodeStats.nTimeConnected stats)
            /\ field e "pingtime" = Value_real (CNodeStats.dPingTime stats)
            /\ field e "version" = Vint (CNodeStats.nVersion stats)
            /\ field e "subver" = Vstr (CNodeStats.cleanSubVer stats)
            /\ field e "inbound" = Vbool (CNodeStats.fInbound stats)
            /\ field e "startingheight" = Vint (CNodeStats.nStartingHeight stats)
            /\ field e "syncnode" = Vbool (CNodeStats.fSyncNode stats))
         (vNodes g) entries.
Proof.
  eexists. split; [apply getpeerinfo_eq|].
  apply Forall2_flat_map_one. intros pnode. unfold peer_info.
  destruct (GetNodeStateStats _) as [[|] n];
    destruct (negb (Nat.eqb (String.length (CNodeStats.addrLocal (copyStats pnode))) 0));
    destruct (double_positive (CNodeStats.dPingWait (copyStats pnode)));
    (eexists; split; [reflexivity|]); cbn; repeat split.
Qed.

(** X2. In a getpeerinfo object the local address is present exactly when
    the peer's local address is not empty, the ping wait exactly when it is
    positive, and the ban score exactly when the node state is known; when
    present they hold the peer's values. *)
Theorem getpeerinfo_optional_keys (g : Globals) :
  exists entries,
    getpeerinfo [] false g = (Return (Varray entries), g, [])
    /\ Forall2
         (fun pnode e =>
            let stats := copyStats pnode in
            has_key e "addrlocal" = negb (String.eqb (CNodeStats.addrLocal stats) "")
            /\ (has_key e "addrlocal" = true ->
                field e "addrlocal" = Vstr (CNodeStats.addrLocal stats))
            /\ has_key e "pingwait" = double_positive (CNodeStats.dPingWait stats)
            /\ (has_key e "pingwait" = true ->
                field e "pingwait" = Value_real (CNodeStats.dPingWait stats))
            /\ has_key e "banscore" = fst (GetNodeStateStats (CNodeStats.nodeid stats))
            /\ (has_key e "banscore" = true ->
                field e "banscore"
                  = Vint (snd (GetNodeStateStats (CNodeStats.nodeid stats)))))
         (vNodes g) entries.
Proof.
  eexists. split; [apply getpeerinfo_eq|].
  apply Forall2_flat_map_one. intros pnode. unfold peer_info.
  destruct (GetNodeStateStats _) as [[|] n];
    destruct (CNodeStats.addrLocal (copyStats pnode)) as [|c l];
    destruct (double_positive (CNodeStats.dPingWait (copyStats pnode)));
    (eexists; split; [reflexivity|]); cbn; repeat split; discriminate.
Qed.

(** X3. The three views of the number of connections agree: the number
    returned by getconnectioncount is the connections field of
    getnetworkinfo, and, as long as the count fits a 32-bit integer, the
    number of objects returned by getpeerinfo. *)
Theorem connection_count_agrees (g : Globals) :
  exists n obj entries,
    getconnectioncount [] false g = (Return (Vint n), g, [])
    /\ getnetworkinfo [] false g = (Return (Vobject obj), g, [])
    /\ find_value obj "connections" = Vint n
    /\ getpeerinfo [] false g = (Return (Varray entries), g, [])
    /\ ((Z.of_nat (List.length (vNodes g)) < 2 ^ 31)%Z ->
        n = Z.of_nat (List.length entries)).
Proof.
  exists (to_int32 (Z.of_nat (List.length (vNodes g)))).
  eexists. eexists. split; [reflexivity|].
  split; [reflexivity|]. split; [reflexivity|].
  split; [apply getpeerinfo_eq|].
  intros Hlt.
  rewrite peer_info_length. unfold to_int32.
  rewrite Z.mod_small; lia.
Qed.

(** ** Queries, help requests and frame conditions *)

Lemma pure_gets {A : Type} (proj : Globals -> A) : pure (gets proj).
Proof. intros g. eexists. reflexivity. Qed.

Lemma pure_get_bool (v : Value) : pure (get_bool v).
Proof. destruct v; simpl; (apply pure_ret || apply pure_throw). Qed.

Ltac pure_query :=
  repeat first
    [ apply pure_ret | apply pure_throw | apply pure_get_str | apply pure_get_int
    | apply pure_get_bool | apply pure_gets
    | apply pure_bind; [|intro]
    | match goal with
      | |- pure (if ?b then _ else _) => destruct b
      | |- pure (let '(_, _) := ?x in _) => destruct x
      | |- pure (match ?x with Some _ => _ | None => _ end) => destruct x
      end ].

(** X4. The query handlers getconnectioncount, getpeerinfo,
    getaddednodeinfo, getnettotals and getnetworkinfo, and makekeypair,
    change none of the three containers and make no connection attempt, log
    line, alert-store call or relay, whatever the parameters and whether
    they answer or throw. *)
Theorem queries_read_only (params : Array) (fHelp : bool) (g : Globals) :
  (exists r, getconnectioncount params fHelp g = (r, g, []))
  /\ (exists r, getpeerinfo params fHelp g = (r, g, []))
  /\ (exists r, getaddednodeinfo params fHelp g = (r, g, []))
  /\ (exists r, getnettotals params fHelp g = (r, g, []))
  /\ (exists r, getnetworkinfo params fHelp g = (r, g, []))
  /\ (exists r, makekeypair params fHelp g = (r, g, [])).
Proof.
  repeat split.
  - assert (Hp : pure (getconnectioncount params fHelp))
      by (unfold getconnectioncount; pure_query). apply Hp.
  - assert (Hp : pure (getpeerinfo params fHelp))
      by (unfold getpeerinfo, CopyNodeStats; pure_query). apply Hp.
  - assert (Hp : pure (getaddednodeinfo params fHelp))
      by (unfold getaddednodeinfo; pure_query). apply Hp.
  - assert (Hp : pure (getnettotals params fHelp))
      by (unfold getnettotals; pure_query). apply Hp.
  - assert (Hp : pure (getnetworkinfo params fHelp))
      by (unfold getnetworkinfo; pure_query). apply Hp.
  - assert (Hp : pure (makekeypair params fHelp))
      by (unfold makekeypair; pure_query). apply Hp.
Qed.

Lemma addnode_wrong_arity (params : Array) (fHelp : bool) (g : Globals) :
  List.length params <> 2 ->
  addnode params fHelp g = (Throw (usage "addnode"), g, []).
Proof.
  intros Hn. unfold addnode. apply Nat.eqb_neq in Hn. rewrite Hn.
  unfold bind, ret. cbn. now rewrite orb_true_r.
Qed.

Lemma addnode_help (params : Array) (g : Globals) :
  exists e, addnode params true g = (Throw e, g, []).
Proof.
  unfold addnode.
  destruct (Nat.eqb (List.length params) 2).
  - destruct (param params 1); cbn; eexists; reflexivity.
  - cbn. eexists; reflexivity.
Qed.

(** X5. A help request, or a call with the wrong number of parameters, is
    answered by every handler with an exception and nothing else: no
    container changes and no collaborator is called.  The exception is the
    usage text, except that addnode, which reads its command before it looks
    at the help flag, may report a command of the wrong type instead. *)
Theorem help_and_arity_errors (params : Array) (fHelp : bool) (g : Globals) :
  (fHelp = true \/ List.length params <> 0 ->
     ping params fHelp g = (Throw (usage "ping"), g, [])
     /\ getconnectioncount params fHelp g = (Throw (usage "getconnectioncount"), g, [])
     /\ getpeerinfo params fHelp g = (Throw (usage "getpeerinfo"), g, [])
     /\ getnetworkinfo params fHelp g = (Throw (usage "getnetworkinfo"), g, [])
     /\ getnettotals params fHelp g = (Throw (usage "getnettotals"), g, []))
  /\ (fHelp = true \/ List.length params < 1 \/ 2 < List.length params ->
       getaddednodeinfo params fHelp g = (Throw (usage "getaddednodeinfo"), g, []))
  /\ (fHelp = true \/ List.length params < 7 ->
       sendalert params fHelp g = (Throw (usage "sendalert"), g, []))
  /\ (fHelp = true \/ 1 < List.length params ->
       makekeypair params fHelp g = (Throw (usage "makekeypair"), g, []))
  /\ (List.length params <> 2 ->
       addnode params fHelp g = (Throw (usage "addnode"), g, []))
  /\ (fHelp = true -> exists e, addnode params fHelp g = (Throw e, g, [])).
Proof.
  split.
  { intros Hc.
    assert (E : fHelp || negb (Nat.eqb (List.length params) 0) = true).
    { destruct Hc as [->|Hn]; [reflexivity|].
      apply Nat.eqb_neq in Hn. rewrite Hn. apply orb_true_r. }
    assert (E' : fHelp || Nat.ltb 0 (List.length params) = true).
    { destruct Hc as [->|Hn]; [reflexivity|].
      replace (Nat.ltb 0 (List.length params)) with true
        by (symmetry; apply Nat.ltb_lt; lia). apply orb_true_r. }
    unfold ping, getconnectioncount, getpeerinfo, getnetworkinfo, getnettotals.
    rewrite E, E'. repeat split. }
  split.
  { intros Hc. unfold getaddednodeinfo.
    replace (fHelp || Nat.ltb (List.length params) 1 || Nat.ltb 2 (List.length params))
      with true; [reflexivity|].
    symmetry. destruct Hc as [->|[Hl|Hl]]; [reflexivity| |].
    - apply Nat.ltb_lt in Hl. rewrite Hl. now rewrite orb_true_r.
    - apply Nat.ltb_lt in Hl. rewrite Hl. now rewrite orb_true_r. }
  split.
  { intros Hc. unfold sendalert.
    replace (fHelp || Nat.ltb (List.length params) 7) with true; [reflexivity|].
    symmetry. destruct Hc as [->|Hl]; [reflexivity|].
    apply Nat.ltb_lt in Hl. rewrite Hl. apply orb_true_r. }
  split.
  { intros Hc. unfold makekeypair.
    replace (fHelp || Nat.ltb 1 (List.length params)) with true; [reflexivity|].
    symmetry. destruct Hc as [->|Hl]; [reflexivity|].
    apply Nat.ltb_lt in Hl. rewrite Hl. apply orb_true_r. }
  split; [apply addnode_wrong_arity|].
  intros ->. apply addnode_help.
Qed.

(** X6. ping applied twice is ping applied once: the second call returns
    null again and leaves the state the first call produced. *)
Theorem ping_idempotent (g : Globals) :
  exists g1,
    ping [] false g = (Return Vnull, g1, [])
    /\ ping [] false g1 = (Return Vnull, g1, [])
    /\ Forall (fun p => fPingQueued p = true) (vNodes g1).
Proof.
  eexists. split; [reflexivity|]. split.
  - unfold ping, bind, modify, ret, with_vNodes. cbn. rewrite map_map. reflexivity.
  - cbn. apply Forall_forall. intros p Hp. apply in_map_iff in Hp.
    destruct Hp as (q & <- & _). reflexivity.
Qed.

(** X7. The number of entries of the transport description is [NET_MAX]
    less one when [NET_UNROUTABLE] is one of the transport numbers below
    [NET_MAX], and [NET_MAX] otherwise. *)
Theorem GetNetworksInfo_length :
  List.length GetNetworksInfo
    = if Nat.ltb NET_UNROUTABLE NET_MAX then NET_MAX - 1 else NET_MAX.
Proof.
  rewrite GetNetworksInfo_eq, length_map. unfold routable_networks.
  rewrite filter_seq_length. reflexivity.
Qed.

(** ** addnode on arbitrary parameters *)

(** The four ways an addnode call can end. *)
Lemma addnode_cases (params : Array) (fHelp : bool) (g g' : Globals)
    (r : Result Value) (c : list Call) :
  addnode params fHelp g = (r, g', c) ->
  (exists e, r = Throw e /\ g' = g /\ c = [])
  \/ (exists x, r = Return Vnull /\ g' = with_vNodes (ConnectNode x) g
                /\ c = [CallConnectNode x])
  \/ (exists x, ~ In x (vAddedNodes g) /\ r = Return Vnull
                /\ g' = with_vAddedNodes (fun v => v ++ [x]) g /\ c = [])
  \/ (exists x l1 l2, vAddedNodes g = l1 ++ x :: l2 /\ ~ In x l1 /\ r = Return Vnull
                      /\ g' = with_vAddedNodes (fun _ => l1 ++ l2) g /\ c = []).
Proof.
  intros E.
  destruct (Nat.eqb (List.length params) 2) eqn:El.
  2:{ apply Nat.eqb_neq in El.
      rewrite (addnode_wrong_arity params fHelp g El) in E.
      inversion E; subst. left. eauto. }
  destruct fHelp.
  { destruct (addnode_help params g) as [e He].
    rewrite He in E. inversion E; subst. left. eauto. }
  destruct params as [|p0 [|p1 [|p2 rest]]]; try discriminate El. clear El.
  destruct p1 as [| | |cmd| |]; try (cbn in E; inversion E; subst; left; eauto; fail).
  destruct (String.eqb_spec cmd "onetry") as [->|Hone].
  { destruct p0 as [| | |x| |]; cbn in E; inversion E; subst;
      [left; eauto|left; eauto|left; eauto|right; left; eauto|left; eauto|left; eauto]. }
  destruct (String.eqb_spec cmd "add") as [->|Hadd].
  { destruct p0 as [| | |x| |]; try (cbn in E; inversion E; subst; left; eauto; fail).
    destruct (in_dec string_dec x (vAddedNodes g)) as [Hin|Hn].
    - rewrite (addnode_add_present g x Hin) in E. inversion E; subst. left. eauto.
    - rewrite (addnode_add_absent g x Hn) in E. inversion E; subst.
      right. right. left. eauto. }
  destruct (String.eqb_spec cmd "remove") as [->|Hrem].
  { destruct p0 as [| | |x| |]; try (cbn in E; inversion E; subst; left; eauto; fail).
    destruct (in_dec string_dec x (vAddedNodes g)) as [Hin|Hn].
    - destruct (find_added_present x _ 0 Hin) as (l1 & l2 & El & Hl1 & _).
      rewrite (addnode_remove_present g x l1 l2 El Hl1) in E. inversion E; subst.
      right. right. right. exists x, l1, l2. auto.
    - rewrite (addnode_remove_absent g x Hn) in E. inversion E; subst. left. eauto. }
  unfold addnode, bind in E. cbn in E.
  apply String.eqb_neq in Hone, Hadd, Hrem. rewrite Hone, Hadd, Hrem in E.
  cbn in E. inversion E; subst. left. eauto.
Qed.

(** X8. addnode keeps the added-node list free of duplicates: whatever the
    parameters, if no target occurs twice before the call, none occurs twice
    after it. *)
Theorem addnode_keeps_NoDup (params : Array) (fHelp : bool) (g : Globals) :
  NoDup (vAddedNodes g) ->
  NoDup (vAddedNodes (snd (fst (addnode params fHelp g)))).
Proof.
  intros Hd.
  destruct (addnode params fHelp g) as [[r g'] c] eqn:E. cbn [fst snd].
  apply addnode_cases in E.
  destruct E as [(e & _ & -> & _)|[(x & _ & -> & _)|[(x & Hn & _ & -> & _)
                |(x & l1 & l2 & El & _ & _ & -> & _)]]]; cbn.
  - exact Hd.
  - exact Hd.
  - apply NoDup_rev in Hd. rewrite <- (rev_involutive (vAddedNodes g ++ [x])).
    apply NoDup_rev. rewrite rev_app_distr. cbn. constructor; [|exact Hd].
    rewrite <- in_rev. exact Hn.
  - rewrite El in Hd. apply NoDup_remove_1 in Hd. exact Hd.
Qed.

(** X9. An addnode call that throws has changed nothing and called nothing;
    one that returns has returned null and has either made one connection
    attempt and kept the added-node list, or made the list one entry longer,
    or made it one entry shorter.  The alert map is never touched. *)
Theorem addnode_outcomes (params : Array) (fHelp : bool) (g g' : Globals)
    (r : Result Value) (c : list Call) :
  addnode params fHelp g = (r, g', c) ->
  mapAlerts g' = mapAlerts g
  /\ (forall e, r = Throw e -> g' = g /\ c = [])
  /\ (forall v, r = Return v ->
        v = Vnull
        /\ ((vAddedNodes g' = vAddedNodes g /\ exists x, c = [CallConnectNode x])
            \/ (List.length (vAddedNodes g') = S (List.length (vAddedNodes g))
                /\ vNodes g' = vNodes g /\ c = [])
            \/ (S (List.length (vAddedNodes g')) = List.length (vAddedNodes g)
                /\ vNodes g' = vNodes g /\ c = []))).
Proof.
  intros E. apply addnode_cases in E.
  destruct E as [(e & -> & -> & ->)|[(x & -> & -> & ->)|[(x & Hn & -> & -> & ->)
                |(x & l1 & l2 & El & _ & -> & -> & ->)]]].
  - split; [reflexivity|]. split; [auto|]. intros v Hv. discriminate.
  - split; [reflexivity|]. split; [intros e He; discriminate|].
    intros v Hv. injection Hv as <-. split; [reflexivity|]. left. split; eauto.
  - split; [reflexivity|]. split; [intros e He; discriminate|].
    intros v Hv. injection Hv as <-. split; [reflexivity|]. right. left.
    cbn. rewrite length_app. cbn. split; [lia|auto].
  - split; [reflexivity|]. split; [intros e He; discriminate|].
    intros v Hv. injection Hv as <-. split; [reflexivity|]. right. right.
    cbn. rewrite El, !length_app. cbn. split; [lia|auto].
Qed.

(** X10. What the state-changing handlers leave alone, whatever the
    parameters and the outcome: ping and sendalert keep the added-node list
    and the number of live peers, and ping keeps the alert map. *)
Theorem ping_sendalert_frame (params : Array) (fHelp : bool) (g : Globals) :
  vAddedNodes (snd (fst (ping params fHelp g))) = vAddedNodes g
  /\ mapAlerts (snd (fst (ping params fHelp g))) = mapAlerts g
  /\ List.length (vNodes (snd (fst (ping params fHelp g)))) = List.length (vNodes g)
  /\ vAddedNodes (snd (fst (sendalert params fHelp g))) = vAddedNodes g
  /\ List.length (vNodes (snd (fst (sendalert params fHelp g))))
       = List.length (vNodes g).
Proof.
  unfold ping.
  destruct (fHelp || negb (Nat.eqb (List.length params) 0)); cbn;
    (split; [reflexivity|]); (split; [reflexivity|]);
    (split; [try rewrite length_map; reflexivity|]);
    (destruct (sendalert params fHelp g) as [[r g'] c] eqn:E; cbn [fst snd];
     apply sendalert_runs in E;
     inversion E as [e logs Hl|alert key sig logs m Ea Ek Es Ep
                    |alert key sig logs m res Ea Ek Es Ep]; subst; cbn;
     (split; [reflexivity|]); try rewrite length_map; reflexivity).
Qed.

(** ** makekeypair *)

Lemma to_int32_small (z : Z) : (- 2 ^ 31 <= z < 2 ^ 31)%Z -> to_int32 z = z.
Proof. intros Hz. unfold to_int32. rewrite Z.mod_small; lia. Qed.

(** The loop entered after [n] draws leaves after some draw [n'], at most the
    10000th: every draw before it differed from the prefix, and if it left
    before the bound the last draw did not. *)
Lemma makekeypair_loop_leaves (strPrefix : string) (fuel : nat) :
  forall n : Z,
    (0 <= n)%Z -> (n + Z.of_nat fuel = 10000)%Z -> (0 < fuel)%nat ->
    exists n',
      makekeypair_loop fuel strPrefix n
        = Some (MakeNewKey (n' - 1), GetPubKey (MakeNewKey (n' - 1)), n')
      /\ (n < n' <= 10000)%Z
      /\ (forall k, (n <= k < n' - 1)%Z ->
            prefix_differs strPrefix (GetPubKey (MakeNewKey k)) = true)
      /\ ((n' < 10000)%Z ->
          prefix_differs strPrefix (GetPubKey (MakeNewKey (n' - 1))) = false).
Proof.
  induction fuel as [|fuel IH]; intros n Hn Hsum Hpos; [lia|].
  cbn [makekeypair_loop]. rewrite to_int32_small by lia.
  destruct ((n + 1 <? 10000)%Z && prefix_differs strPrefix (GetPubKey (MakeNewKey n)))
    eqn:Hcont.
  - apply andb_true_iff in Hcont. destruct Hcont as [Hlt Hdiff].
    apply Z.ltb_lt in Hlt.
    destruct (IH (n + 1)%Z) as (n' & E & Hr & Hbefore & Hlast); try lia.
    exists n'. split; [exact E|]. split; [lia|]. split; [|exact Hlast].
    intros k Hk. destruct (Z.eq_dec k n) as [->|Hne]; [exact Hdiff|].
    apply Hbefore. lia.
  - exists (n + 1)%Z. replace (n + 1 - 1)%Z with n by lia.
    split; [reflexivity|]. split; [lia|]. split; [intros k Hk; lia|].
    intros Hlt. apply Z.ltb_lt in Hlt. rewrite Hlt in Hcont. exact Hcont.
Qed.

Lemma makekeypair_loop_first (strPrefix : string) (k : Z) :
  (0 <= k < 10000)%Z ->
  (forall j, (0 <= j < k)%Z ->
     prefix_differs strPrefix (GetPubKey (MakeNewKey j)) = true) ->
  (prefix_differs strPrefix (GetPubKey (MakeNewKey k)) = false \/ k = 9999%Z) ->
  makekeypair_loop (Z.to_nat 10000) strPrefix 0
    = Some (MakeNewKey k, GetPubKey (MakeNewKey k), (k + 1)%Z).
Proof.
  intros Hk Hbefore Hat.
  destruct (makekeypair_loop_leaves strPrefix (Z.to_nat 10000) 0)
    as (n' & E & Hr & Hdiff & Hlast); try lia.
  assert (n' - 1 = k)%Z as Hn.
  { destruct (Z.lt_trichotomy (n' - 1) k) as [Hlt|[Heq|Hgt]]; [|exact Heq|].
    - rewrite Hbefore in Hlast by lia.
      assert (Hn' : (n' < 10000)%Z) by lia.
      specialize (Hlast Hn'). discriminate.
    - destruct Hat as [Hat|Hat]; [|lia].
      rewrite Hdiff in Hat by lia. discriminate. }
  rewrite E, Hn. replace n' with (k + 1)%Z by lia. reflexivity.
Qed.

Lemma substring_prefix (p h : string) :
  String.eqb p (String.substring 0 (String.length p) h) = true ->
  String.prefix p h = true.
Proof.
  revert h; induction p as [|a p IH]; intros h E; [destruct h; reflexivity|].
  destruct h as [|b h]; [discriminate|].
  cbn in E. cbn. destruct (Ascii.eqb_spec a b) as [->|Hne]; [|discriminate].
  destruct (ascii_dec b b); [|congruence]. apply IH. exact E.
Qed.

(** X11. When makekeypair returns an object, it holds a public key, in hex,
    that begins with the requested prefix, and the private key text. *)
Theorem makekeypair_key_has_prefix (params : Array) (fHelp : bool) (g g' : Globals)
    (obj : Object) (c : list Call) :
  makekeypair params fHelp g = (Return (Vobject obj), g', c) ->
  exists pubkey secret,
    obj = [("PublicKey", Vstr pubkey); ("PrivateKey", Vstr secret)]
    /\ forall strPrefix, param params 0 = Vstr strPrefix ->
         String.prefix strPrefix pubkey = true.
Proof.
  unfold makekeypair. intros E.
  destruct (fHelp || Nat.ltb 1 (List.length params)); [discriminate|].
  apply bind_pure_Return in E; [|pure_query]. destruct E as (p & Ep & E).
  destruct (makekeypair_loop (Z.to_nat 10000) p 0) as [[[key pubkey] n]|];
    [|discriminate].
  destruct (prefix_differs p pubkey) eqn:Hd; [discriminate|].
  unfold ret in E. injection E as <- _ _.
  eexists. eexists. split; [reflexivity|].
  intros strPrefix Hp.
  assert (p = strPrefix) as ->.
  { destruct params as [|v params]; [discriminate Hp|].
    cbn in Ep, Hp. apply get_str_Return in Ep. congruence. }
  unfold prefix_differs in Hd. apply negb_false_iff in Hd.
  unfold substr, size in Hd. rewrite Nat2Z.id in Hd. cbn [Z.to_nat] in Hd.
  apply substring_prefix. exact Hd.
Qed.

(** X12. makekeypair draws keys until one's public key begins with the
    prefix, at most 10000 of them: it returns the first matching key among
    the first 10000 draws, and null when none of them matches. *)
Theorem makekeypair_first_match (strPrefix : string) (g : Globals) :
  ((forall k, (0 <= k < 10000)%Z ->
      prefix_differs strPrefix (GetPubKey (MakeNewKey k)) = true) ->
   makekeypair [Vstr strPrefix] false g = (Return Vnull, g, []))
  /\ (forall k,
        (0 <= k < 10000)%Z ->
        prefix_differs strPrefix (GetPubKey (MakeNewKey k)) = false ->
        (forall j, (0 <= j < k)%Z ->
           prefix_differs strPrefix (GetPubKey (MakeNewKey j)) = true) ->
        makekeypair [Vstr strPrefix] false g
          = (Return (Vobject [("PublicKey", Vstr (HexStr (GetPubKey (MakeNewKey k))));
                              ("PrivateKey",
                               Vstr (CAnoncoinSecret_ToString (MakeNewKey k)))]),
             g, [])).
Proof.
  split.
  - intros Hall. unfold makekeypair, bind, ret. cbn -[makekeypair_loop Z.to_nat].
    rewrite (makekeypair_loop_first strPrefix 9999);
      [|lia|intros j Hj; apply Hall; lia|right; reflexivity].
    rewrite Hall by lia. reflexivity.
  - intros k Hk Hmatch Hbefore.
    unfold makekeypair, bind, ret. cbn -[makekeypair_loop Z.to_nat].
    rewrite (makekeypair_loop_first strPrefix k); [|exact Hk|exact Hbefore|left; exact Hmatch].
    rewrite Hmatch. reflexivity.
Qed.

(** X13. Without a prefix, or with the empty prefix, makekeypair returns the
    first key drawn; it never returns null. *)
Theorem makekeypair_no_prefix (g : Globals) :
  makekeypair [] false g
    = (Return (Vobject [("PublicKey", Vstr (HexStr (GetPubKey (MakeNewKey 0))));
                        ("PrivateKey", Vstr (CAnoncoinSecret_ToString (MakeNewKey 0)))]),
       g, [])
  /\ makekeypair [Vstr ""] false g = makekeypair [] false g.
Proof.
  assert (Hd : forall pubkey, prefix_differs "" pubkey = false).
  { intros pubkey. unfold prefix_differs, substr. cbn.
    destruct (HexStr pubkey); reflexivity. }
  split.
  - unfold makekeypair, bind, ret. cbn -[makekeypair_loop Z.to_nat].
    rewrite (makekeypair_loop_first "" 0); [|lia|intros j Hj; lia|left; apply Hd].
    rewrite Hd. reflexivity.
  - reflexivity.
Qed.

(** ** The subversion set and its rendering *)

(** X14. SingleAlertSubVersionsString renders the empty set as the empty
    string and a single element as itself, and joins the elements with the
    separator whenever the first element is not the empty string. *)
Theorem SingleAlertSubVersionsString_joins :
  SingleAlertSubVersionsString [] = ""
  /\ (forall x, SingleAlertSubVersionsString [x] = x)
  /\ (forall x xs,
        x <> "" ->
        SingleAlertSubVersionsString (x :: xs) = String.concat " or " (x :: xs)).
Proof.
  split; [reflexivity|]. split.
  - intros x. destruct x as [|c x]; [reflexivity|].
    now rewrite SingleAlertSubVersionsString_join.
  - apply SingleAlertSubVersionsString_join.
Qed.

Lemma compare_lt_trans (a b c : string) :
  str_lt a b -> str_lt b c -> str_lt a c.
Proof.
  unfold str_lt. revert b c; induction a as [|x a IH]; intros [|y b] [|z c];
    cbn; try discriminate; try reflexivity.
  unfold Ascii.compare.
  destruct (N.compare_spec (N_of_ascii x) (N_of_ascii y)) as [Exy|Lxy|Gxy];
    try discriminate;
    destruct (N.compare_spec (N_of_ascii y) (N_of_ascii z)) as [Eyz|Lyz|Gyz];
    try discriminate; intros Hab Hbc.
  - rewrite Exy, Eyz, N.compare_refl. eapply IH; eassumption.
  - rewrite Exy. apply N.compare_lt_iff in Lyz. now rewrite Lyz.
  - rewrite <- Eyz. apply N.compare_lt_iff in Lxy. now rewrite Lxy.
  - assert (Hxz : (N_of_ascii x < N_of_ascii z)%N) by lia.
    apply N.compare_lt_iff in Hxz. now rewrite Hxz.
Qed.

Lemma compare_gt_lt (a b : string) : String.compare a b = Gt -> str_lt b a.
Proof.
  unfold str_lt. intros E. rewrite String.compare_antisym, E. reflexivity.
Qed.

Lemma str_lt_irrefl (a : string) : ~ str_lt a a.
Proof.
  unfold str_lt. intros E.
  assert (Heq : String.compare a a = Eq).
  { clear E. induction a as [|x a IH]; cbn; [reflexivity|].
    unfold Ascii.compare. now rewrite N.compare_refl. }
  congruence.
Qed.

(** [std::set::insert] keeps the set strictly ascending. *)
Lemma set_insert_sorted (x : string) (l : list string) :
  StronglySorted str_lt l -> StronglySorted str_lt (set_insert x l).
Proof.
  induction l as [|y l IH]; intros Hs; cbn.
  - constructor; constructor.
  - apply StronglySorted_inv in Hs. destruct Hs as [Hl Hy].
    destruct (String.compare x y) eqn:E.
    + constructor; assumption.
    + constructor; [constructor; assumption|].
      constructor; [exact E|].
      eapply Forall_impl; [|exact Hy]. intros z Hz. cbv beta.
      eapply compare_lt_trans; eassumption.
    + constructor; [apply IH; exact Hl|].
      apply Forall_forall. intros z Hz. apply set_insert_In in Hz.
      destruct Hz as [->|Hz].
      * now apply compare_gt_lt.
      * rewrite Forall_forall in Hy. now apply Hy.
Qed.

Lemma subver_loop_sorted (fuel : nat) (s : string) :
  forall (iPos : Z) (acc r : list string),
    subver_loop fuel s iPos acc = Some r ->
    StronglySorted str_lt acc -> StronglySorted str_lt r.
Proof.
  induction fuel as [|fuel IH]; intros iPos acc r E Hs; [discriminate|].
  cbn [subver_loop] in E.
  destruct (find s "/" iPos) as [iLast|].
  - eapply IH; [exact E|]. apply set_insert_sorted. exact Hs.
  - injection E as <-. exact Hs.
Qed.

Lemma parse_subvers_sorted (s : string) (g g' : Globals) (r : list string)
    (c : list Call) :
  parse_subvers s g = (Return r, g', c) -> StronglySorted str_lt r.
Proof.
  unfold parse_subvers. intros E.
  destruct (negb (Nat.eqb (String.length s) 0)).
  - destruct (char_is s 0 "/" && char_is s (wrap64 (size s - 1)) "/"); [|discriminate].
    destruct (subver_loop (S (String.length s)) s 1 []) as [r'|] eqn:El.
    + unfold ret in E. injection E as <- _ _.
      eapply subver_loop_sorted; [exact El|constructor].
    + unfold ret in E. injection E as <- _ _. constructor.
  - unfold ret in E. injection E as <- _ _. constructor.
Qed.

Lemma sorted_NoDup (l : list string) : StronglySorted str_lt l -> NoDup l.
Proof.
  induction l as [|x l IH]; intros Hs; [constructor|].
  apply StronglySorted_inv in Hs. destruct Hs as [Hl Hx].
  constructor; [|apply IH; exact Hl].
  intros Hin. rewrite Forall_forall in Hx. apply (str_lt_irrefl x). now apply Hx.
Qed.

(** X15. Every alert that leaves sendalert has its subversion set in
    strictly ascending byte order, hence without duplicates, whatever the
    order and the repetitions of the versions in the parameter. *)
Theorem sendalert_subversions_ascending (params : Array) (fHelp : bool)
    (g g' : Globals) (r : Result Value) (calls : list Call) (c : Call) (alert : CAlert) :
  sendalert params fHelp g = (r, g', calls) ->
  In c calls -> carried c = Some alert ->
  StronglySorted str_lt (setSubVer alert) /\ NoDup (setSubVer alert).
Proof.
  intros E Hin Hc.
  destruct (sendalert_carried _ _ _ _ _ _ _ _ E Hin Hc) as (a & sig & Ea & ->).
  apply sendalert_alert_subver in Ea. destruct Ea as (s & _ & Ep).
  apply parse_subvers_sorted in Ep. cbn.
  split; [exact Ep|apply sorted_NoDup; exact Ep].
Qed.

(** ** A successful sendalert *)

Lemma get_int_Return (v : Value) (g g' : Globals) (n : Z) (c : list Call) :
  get_int v g = (Return n, g', c) -> exists m, v = Vint m /\ n = to_int32 m.
Proof.
  destruct v; simpl; unfold ret, throw; intros E; inversion E. eauto.
Qed.

Lemma optional_int_Return (params : Array) (i : nat) (default : Z)
    (g g' : Globals) (n : Z) (c : list Call) :
  (if Nat.ltb i (List.length params) then get_int (param params i) else ret default) g
    = (Return n, g', c) ->
  n = optional_int params i default.
Proof.
  unfold optional_int. destruct (Nat.ltb i (List.length params)).
  - intros E. apply get_int_Return in E. destruct E as (m & -> & ->). reflexivity.
  - unfold ret. intros E. now injection E as <-.
Qed.

(** The alert built from the parameters, field by field. *)
Lemma sendalert_alert_fields (params : Array) (g g' : Globals) (alert : CAlert)
    (c : list Call) :
  sendalert_alert params g = (Return alert, g', c) ->
  nVersion alert = PROTOCOL_VERSION
  /\ vchSig alert = []
  /\ vchMsg alert = Serialize (set_vchMsg alert [])
  /\ param params 0 = Vstr (strStatusBar alert)
  /\ (exists n, param params 2 = Vint n /\ nMinVer alert = to_int32 n)
  /\ (exists n, param params 3 = Vint n /\ nMaxVer alert = to_int32 n)
  /\ (exists n, param params 5 = Vint n /\ nPriority alert = to_int32 n)
  /\ (exists n, param params 6 = Vint n /\ nID alert = to_int32 n)
  /\ nCancel alert = optional_int params 9 0
  /\ nRelayUntil alert
       = to_int64 (to_int64 (optional_int params 7 365 * (24 * 60 * 60)) + GetAdjustedTime)
  /\ nExpiration alert
       = to_int64 (to_int64 (optional_int params 8 365 * (24 * 60 * 60)) + GetAdjustedTime).
Proof.
  unfold sendalert_alert. intros E.
  apply bind_pure_Return in E; [|pure_query]. destruct E as (s0 & E0 & E).
  apply bind_pure_Return in E; [|pure_query]. destruct E as (v2 & E2 & E).
  apply bind_pure_Return in E; [|pure_query]. destruct E as (v3 & E3 & E).
  apply bind_pure_Return in E; [|pure_query]. destruct E as (s & Es & E).
  apply bind_pure_Return in E; [|apply pure_parse_subvers]. destruct E as (set_ & Ep & E).
  apply bind_pure_Return in E; [|pure_query]. destruct E as (v5 & E5 & E).
  apply bind_pure_Return in E; [|pure_query]. destruct E as (v6 & E6 & E).
  apply bind_pure_Return in E; [|pure_query]. destruct E as (v9 & E9 & E).
  apply bind_pure_Return in E; [|pure_query]. destruct E as (v7 & E7 & E).
  apply bind_pure_Return in E; [|pure_query]. destruct E as (v8 & E8 & E).
  unfold ret in E. injection E as <- _ _. cbn.
  apply get_str_Return in E0.
  apply get_int_Return in E2, E3, E5, E6.
  apply optional_int_Return in E7, E8, E9. subst v7 v8 v9.
  repeat split; auto.
Qed.

(** A sendalert call that returns: the alert, the key, the calls made, the
    final state and the object returned. *)
Lemma sendalert_success (params : Array) (fHelp : bool) (g g' : Globals)
    (res : Value) (calls : list Call) :
  sendalert params fHelp g = (Return res, g', calls) ->
  exists alert key sig logs m,
    sendalert_alert params g = (Return alert, g, [])
    /\ sendalert_key params g = (Return key, g, logs)
    /\ Forall is_log logs
    /\ Sign key (Hash (vchMsg alert)) = (true, sig)
    /\ ProcessAlert (set_vchSig alert sig) (mapAlerts g) = (true, m)
    /\ g' = with_vNodes (map (RelayTo (set_vchSig alert sig)))
                        (with_mapAlerts (fun _ => m) g)
    /\ calls = logs ++ CallProcessAlert (set_vchSig alert sig)
                     :: CallPrint (set_vchSig alert sig)
                     :: map (fun pnode => CallRelayTo (set_vchSig alert sig) (id pnode))
                            (vNodes g)
    /\ res = Vobject
               (let fields :=
                  [("AlertID", Vint (nID alert));
                   ("Priority", Vint (nPriority alert));
                   ("Version", Vint (nVersion alert));
                   ("MinVer", Vint (nMinVer alert));
                   ("MaxVer", Vint (nMaxVer alert));
                   ("SubVer", Vstr (SingleAlertSubVersionsString (setSubVer alert)));
                   ("RelayUntil", Vint (nRelayUntil alert));
                   ("Expiration", Vint (nExpiration alert));
                   ("StatusBar", Vstr (strStatusBar alert))] in
                if (0 <? nCancel alert)%Z
                then fields ++ [("Cancel", Vint (nCancel alert))]
                else fields).
Proof.
  unfold sendalert. intros E.
  destruct (fHelp || Nat.ltb (List.length params) 7); [discriminate|].
  unfold bind at 1 in E.
  destruct (pure_sendalert_alert params g) as [ra Ea]. rewrite Ea in E.
  destruct ra as [alert|e]; [|discriminate].
  unfold bind at 1 in E.
  destruct (sendalert_key params g) as [[rk gk] logs] eqn:Ek.
  destruct (sendalert_key_cases _ _ _ _ _ Ek) as (-> & Hlogs & _).
  destruct rk as [key|e]; [|discriminate].
  destruct (Sign key (Hash (vchMsg alert))) as [[|] sig] eqn:Es; cbn [negb] in E;
    [|discriminate].
  unfold bind at 1, process_alert in E.
  destruct (ProcessAlert (set_vchSig alert sig) (mapAlerts g)) as [[|] m] eqn:Ep;
    cbn [negb] in E; [|discriminate].
  unfold bind, emit, relay_all, ret in E. cbn -[push_back] in E.
  rewrite app_nil_r in E. injection E as <- <- <-.
  exists alert, key, sig, logs, m.
  repeat (split; [assumption || reflexivity|]).
  destruct alert; cbn. destruct (0 <? _)%Z; reflexivity.
Qed.

Lemma adjacent_In {A : Type} (l : list A) (a b : A) :
  In (a, b) (adjacent l) -> In a l /\ In b l.
Proof.
  induction l as [|x l IH]; cbn; [tauto|].
  destruct l as [|y l]; [cbn; tauto|].
  intros [E|Hin].
  - injection E as <- <-. split; [now left|right; now left].
  - destruct (IH Hin) as [Ha Hb]. split; right; assumption.
Qed.

Lemma adjacent_ascending (l : list Z) (a b : Z) :
  StronglySorted Z.lt l -> In (a, b) (adjacent l) -> (a < b)%Z.
Proof.
  induction l as [|x l IH]; cbn; [tauto|].
  destruct l as [|y l]; [cbn; tauto|].
  intros Hs [E|Hin].
  - injection E as <- <-. apply StronglySorted_inv in Hs. destruct Hs as [_ Hx].
    now apply Forall_inv in Hx.
  - apply StronglySorted_inv in Hs. destruct Hs as [Hs _]. now apply IH.
Qed.

(** No element of an ascending list lies strictly between two neighbours. *)
Lemma adjacent_no_between (l : list Z) (a b x : Z) :
  StronglySorted Z.lt l -> In (a, b) (adjacent l) -> In x l ->
  (a < x)%Z -> (x < b)%Z -> False.
Proof.
  induction l as [|h l IH]; cbn; [tauto|].
  destruct l as [|y l]; [cbn; tauto|].
  intros Hs Hab Hx Hax Hxb.
  apply StronglySorted_inv in Hs. destruct Hs as [Hs Hh].
  rewrite Forall_forall in Hh.
  destruct Hab as [E|Hab].
  - injection E as <- <-.
    destruct Hx as [->|[->|Hx]]; try lia.
    apply StronglySorted_inv in Hs. destruct Hs as [_ Hy].
    rewrite Forall_forall in Hy. specialize (Hy x Hx). lia.
  - destruct Hx as [->|Hx].
    + apply adjacent_In in Hab. destruct Hab as [Ha _]. specialize (Hh a Ha). lia.
    + now apply IH.
Qed.

Lemma positions_at_In (c : ascii) (s : string) (i d : Z) :
  In d (positions_at c s i)
  <-> (i <= d)%Z /\ String.get (Z.to_nat (d - i)) s = Some c.
Proof.
  revert i; induction s as [|a t IH]; intros i; cbn [positions_at].
  - cbn. split; [tauto|]. intros [_ E]. destruct (Z.to_nat (d - i)); discriminate.
  - assert (Ht : In d (positions_at c t (i + 1))
                 <-> (i < d)%Z /\ String.get (Z.to_nat (d - i)) (String a t) = Some c).
    { rewrite IH. split; intros [Hle E]; (split; [lia|]).
      - replace (Z.to_nat (d - i)) with (S (Z.to_nat (d - (i + 1)))) by lia. exact E.
      - replace (Z.to_nat (d - i)) with (S (Z.to_nat (d - (i + 1)))) in E by lia.
        exact E. }
    destruct (Ascii.eqb_spec a c) as [->|Hne].
    + cbn [In]. rewrite Ht. split.
      * intros [<-|[Hlt E]]; [|split; [lia|exact E]].
        split; [lia|]. now rewrite Z.sub_diag.
      * intros [Hle E]. destruct (Z.eq_dec i d) as [Heq|Hneq]; [now left|].
        right. split; [lia|exact E].
    + rewrite Ht. split.
      * intros [Hlt E]. split; [lia|exact E].
      * intros [Hle E]. split; [|exact E].
        destruct (Z.eq_dec i d) as [<-|Hneq]; [|lia].
        rewrite Z.sub_diag in E. cbn in E. congruence.
Qed.

Lemma substring_length (s : string) (n m : nat) :
  n + m <= String.length s -> String.length (String.substring n m s) = m.
Proof.
  revert n m; induction s as [|a t IH]; intros n m Hle.
  - cbn in Hle. assert (n = 0 /\ m = 0) as [-> ->] by lia. reflexivity.
  - destruct n as [|n].
    + destruct m as [|m]; [reflexivity|]. cbn. f_equal. apply (IH 0 m).
      cbn in Hle. lia.
    + cbn. apply IH. cbn in Hle. lia.
Qed.

(** The shape of a delimited span: at least two characters, a slash first
    and last, and no slash in between. *)
Lemma delimited_spans_shape (s x : string) :
  In x (delimited_spans s) ->
  2 <= String.length x
  /\ String.get 0 x = Some "/"%char
  /\ String.get (String.length x - 1) x = Some "/"%char
  /\ forall k, 0 < k < String.length x - 1 -> String.get k x <> Some "/"%char.
Proof.
  unfold delimited_spans. intros Hin. apply in_map_iff in Hin.
  destruct Hin as ([d d'] & <- & Hadj).
  pose proof (positions_at_sorted "/" s 0) as Hs. fold (delimiters s) in Hs.
  pose proof (positions_at_range "/" s 0) as Hr. fold (delimiters s) in Hr.
  rewrite Forall_forall in Hr.
  pose proof (adjacent_ascending _ _ _ Hs Hadj) as Hlt.
  destruct (adjacent_In _ _ _ Hadj) as [Hd Hd'].
  pose proof (Hr d Hd) as Rd. pose proof (Hr d' Hd') as Rd'. cbv beta in Rd, Rd'.
  unfold delimiters in Hd, Hd'. apply positions_at_In in Hd, Hd'.
  destruct Hd as [_ Gd]. destruct Hd' as [_ Gd'].
  rewrite Z.sub_0_r in Gd, Gd'.
  unfold span, substr, size in *. cbn [fst snd].
  set (n := Z.to_nat d) in *. set (m := Z.to_nat (d' + 1 - d)).
  assert (Hm : m = Z.to_nat d' - n + 1) by lia.
  assert (Hlen : String.length (String.substring n m s) = m)
    by (apply substring_length; lia).
  rewrite Hlen. split; [lia|]. split.
  - rewrite String.substring_correct1 by lia. exact Gd.
  - split.
    + rewrite String.substring_correct1 by lia.
      replace (m - 1 + n) with (Z.to_nat d') by lia. exact Gd'.
    + intros k Hk. rewrite String.substring_correct1 by lia. intros Gk.
      apply (adjacent_no_between _ _ _ (Z.of_nat (k + n)) Hs Hadj); try lia.
      unfold delimiters. apply positions_at_In. split; [lia|].
      rewrite Z.sub_0_r, Nat2Z.id. exact Gk.
Qed.

(** The subversion set of a carried alert holds delimited spans only. *)
Lemma carried_subvers_spans (params : Array) (fHelp : bool) (g g' : Globals)
    (r : Result Value) (calls : list Call) (c : Call) (alert : CAlert) (s : string) :
  sendalert params fHelp g = (r, g', calls) ->
  In c calls -> carried c = Some alert ->
  param params 4 = Vstr s -> (size s < 2 ^ 64)%Z ->
  forall x, In x (setSubVer alert) -> In x (delimited_spans s).
Proof.
  intros E Hin Hc Hs Hsize x Hx.
  destruct (sendalert_carried _ _ _ _ _ _ _ _ E Hin Hc) as (a & sig & Ea & ->).
  apply sendalert_alert_subver in Ea. destruct Ea as (s' & Hs' & Ep).
  rewrite Hs in Hs'. injection Hs' as <-. cbn in Hx.
  destruct (parse_subvers_cases s g Hsize) as (Hempty & Hbad & Hgood).
  destruct (string_dec s "") as [Hnil|Hne].
  - rewrite (Hempty Hnil) in Ep. injection Ep as Ep. rewrite <- Ep in Hx. destruct Hx.
  - destruct (well_delimited s) eqn:Hwd.
    + destruct (Hgood Hne eq_refl) as (set_ & Eg & Hiff).
      rewrite Eg in Ep. injection Ep as Ep. rewrite <- Ep in Hx. now apply Hiff.
    + rewrite (Hbad Hne eq_refl) in Ep. discriminate.
Qed.

(** X16. Every element of the subversion set of an alert that leaves
    sendalert is a version in the delimited form: at least two characters,
    beginning and ending with a slash and with no slash in between. *)
Theorem sendalert_subversions_delimited (params : Array) (fHelp : bool)
    (g g' : Globals) (r : Result Value) (calls : list Call) (c : Call) (alert : CAlert)
    (s : string) :
  sendalert params fHelp g = (r, g', calls) ->
  In c calls -> carried c = Some alert ->
  param params 4 = Vstr s -> (size s < 2 ^ 64)%Z ->
  forall x, In x (setSubVer alert) ->
    2 <= String.length x
    /\ String.get 0 x = Some "/"%char
    /\ String.get (String.length x - 1) x = Some "/"%char
    /\ forall k, 0 < k < String.length x - 1 -> String.get k x <> Some "/"%char.
Proof.
  intros E Hin Hc Hs Hsize x Hx.
  apply (delimited_spans_shape s).
  eapply carried_subvers_spans; eassumption.
Qed.

Lemma to_int32_range (z : Z) : (- 2 ^ 31 <= to_int32 z < 2 ^ 31)%Z.
Proof.
  unfold to_int32. pose proof (Z.mod_pos_bound (z + 2 ^ 31) (2 ^ 32)). lia.
Qed.

Lemma to_int64_small (z : Z) : (- 2 ^ 63 <= z < 2 ^ 63)%Z -> to_int64 z = z.
Proof. intros Hz. unfold to_int64. rewrite Z.mod_small; lia. Qed.

Lemma optional_int_range (params : Array) (i : nat) (default : Z) :
  (- 2 ^ 31 <= default < 2 ^ 31)%Z ->
  (- 2 ^ 31 <= optional_int params i default < 2 ^ 31)%Z.
Proof.
  intros Hd. unfold optional_int.
  destruct (Nat.ltb i (List.length params)); [|exact Hd].
  destruct (param params i); try exact Hd. apply to_int32_range.
Qed.

Lemma optional_int_absent (params : Array) (i : nat) (default : Z) :
  List.length params <= i -> optional_int params i default = default.
Proof.
  intros Hle. unfold optional_int.
  replace (Nat.ltb i (List.length params)) with false; [reflexivity|].
  symmetry. apply Nat.ltb_ge. exact Hle.
Qed.

(** X17. The object a successful sendalert returns shows the alert that was
    handed to the alert store: its identifier, priority, version, version
    range, validity times and status text, its subversion set joined by the
    separator, and its cancel identifier exactly when that is positive. *)
Theorem sendalert_response (params : Array) (fHelp : bool) (g g' : Globals)
    (res : Value) (calls : list Call) (s : string) :
  sendalert params fHelp g = (Return res, g', calls) ->
  param params 4 = Vstr s -> (size s < 2 ^ 64)%Z ->
  exists alert,
    In (CallProcessAlert alert) calls
    /\ field res "AlertID" = Vint (nID alert)
    /\ field res "Priority" = Vint (nPriority alert)
    /\ field res "Version" = Vint (nVersion alert)
    /\ field res "MinVer" = Vint (nMinVer alert)
    /\ field res "MaxVer" = Vint (nMaxVer alert)
    /\ field res "SubVer" = Vstr (String.concat " or " (setSubVer alert))
    /\ field res "RelayUntil" = Vint (nRelayUntil alert)
    /\ field res "Expiration" = Vint (nExpiration alert)
    /\ field res "StatusBar" = Vstr (strStatusBar alert)
    /\ has_key res "Cancel" = (0 <? nCancel alert)%Z
    /\ (has_key res "Cancel" = true -> field res "Cancel" = Vint (nCancel alert)).
Proof.
  intros E Hs Hsize.
  destruct (sendalert_success _ _ _ _ _ _ E)
    as (alert & key & sig & logs & m & Ea & Ek & Hl & Es & Ep & Hg & Hc & Hres).
  exists (set_vchSig alert sig).
  assert (Hin : In (CallProcessAlert (set_vchSig alert sig)) calls).
  { rewrite Hc. apply in_or_app. right. now left. }
  split; [exact Hin|].
  assert (Hjoin : SingleAlertSubVersionsString (setSubVer alert)
                  = String.concat " or " (setSubVer alert)).
  { pose proof (carried_subvers_spans _ _ _ _ _ _ _ _ s E Hin eq_refl Hs Hsize) as Hsp.
    cbn in Hsp. destruct (setSubVer alert) as [|x xs]; [reflexivity|].
    apply SingleAlertSubVersionsString_join.
    destruct (delimited_spans_shape s x (Hsp x (or_introl eq_refl))) as [Hlen _].
    intros ->. cbn in Hlen. lia. }
  rewrite Hres. cbn -[SingleAlertSubVersionsString String.concat].
  rewrite Hjoin.
  destruct (0 <? nCancel alert)%Z; cbn -[String.concat]; repeat split; discriminate.
Qed.

(** X18. With a clock between 0 and 2^62, the alert that leaves sendalert
    is relayed until, and expires at, the adjusted time plus 86400 seconds
    for each day given, 365 days when the parameter is absent; its cancel
    identifier is the tenth parameter, 0 when absent; its version is the
    protocol version. *)
Theorem sendalert_validity_times (params : Array) (fHelp : bool) (g g' : Globals)
    (r : Result Value) (calls : list Call) (c : Call) (alert : CAlert) :
  sendalert params fHelp g = (r, g', calls) ->
  In c calls -> carried c = Some alert ->
  (0 <= GetAdjustedTime < 2 ^ 62)%Z ->
  nRelayUntil alert = (GetAdjustedTime + 86400 * optional_int params 7 365)%Z
  /\ nExpiration alert = (GetAdjustedTime + 86400 * optional_int params 8 365)%Z
  /\ nCancel alert = optional_int params 9 0
  /\ nVersion alert = PROTOCOL_VERSION
  /\ (List.length params = 7 ->
      nRelayUntil alert = (GetAdjustedTime + 31536000)%Z
      /\ nExpiration alert = (GetAdjustedTime + 31536000)%Z
      /\ nCancel alert = 0%Z).
Proof.
  intros E Hin Hc Hnow.
  destruct (sendalert_carried _ _ _ _ _ _ _ _ E Hin Hc) as (a & sig & Ea & ->).
  destruct (sendalert_alert_fields _ _ _ _ _ Ea)
    as (Hv & _ & _ & _ & _ & _ & _ & _ & Hcancel & Hrelay & Hexp).
  cbn [set_vchSig nRelayUntil nExpiration nCancel nVersion].
  pose proof (optional_int_range params 7 365) as R7.
  pose proof (optional_int_range params 8 365) as R8.
  assert (Hr : nRelayUntil a = (GetAdjustedTime + 86400 * optional_int params 7 365)%Z).
  { rewrite Hrelay. rewrite (to_int64_small (_ * _)) by lia.
    rewrite to_int64_small by lia. lia. }
  assert (He : nExpiration a = (GetAdjustedTime + 86400 * optional_int params 8 365)%Z).
  { rewrite Hexp. rewrite (to_int64_small (_ * _)) by lia.
    rewrite to_int64_small by lia. lia. }
  repeat split; try assumption.
  - rewrite Hr, optional_int_absent by lia. lia.
  - rewrite He, optional_int_absent by lia. lia.
  - rewrite Hcancel, optional_int_absent by lia. reflexivity.
Qed.

(** X19. A sendalert call that returns has, after its log lines, handed
    one alert to the alert store, which accepted it, printed it, and relayed
    that same alert to every peer that was live at the call, once each, in
    registration order.  The alert's message is the serialization of the
    unsigned alert and its signature is the one the key produced for the
    hash of that message.  The added-node list is unchanged. *)
Theorem sendalert_relays_once (params : Array) (fHelp : bool) (g g' : Globals)
    (res : Value) (calls : list Call) :
  sendalert params fHelp g = (Return res, g', calls) ->
  exists alert logs key,
    Forall is_log logs
    /\ calls = logs ++ CallProcessAlert alert :: CallPrint alert
                     :: map (fun pnode => CallRelayTo alert (id pnode)) (vNodes g)
    /\ vNodes g' = map (RelayTo alert) (vNodes g)
    /\ vAddedNodes g' = vAddedNodes g
    /\ ProcessAlert alert (mapAlerts g) = (true, mapAlerts g')
    /\ Sign key (Hash (vchMsg alert)) = (true, vchSig alert)
    /\ vchMsg alert = Serialize (set_vchSig (set_vchMsg alert []) []).
Proof.
  intros E.
  destruct (sendalert_success _ _ _ _ _ _ E)
    as (alert & key & sig & logs & m & Ea & Ek & Hl & Es & Ep & -> & -> & _).
  destruct (sendalert_alert_fields _ _ _ _ _ Ea) as (_ & Hsig & Hmsg & _).
  exists (set_vchSig alert sig), logs, key.
  split; [exact Hl|]. split; [reflexivity|]. split; [reflexivity|].
  split; [reflexivity|]. split; [exact Ep|]. split; [exact Es|].
  cbn [set_vchSig vchMsg]. rewrite Hmsg. f_equal.
  destruct alert; cbn in *. subst. reflexivity.
Qed.

(** ** The DNS listing of getaddednodeinfo *)

Lemma resolved_filter (names : list string) :
  map fst (resolved names)
    = filter (fun x => fst (Lookup x GetDefaultPort fNameLookup 0)) names.
Proof.
  unfold resolved. induction names as [|x names IH]; [reflexivity|].
  cbn [flat_map filter].
  destruct (Lookup x GetDefaultPort fNameLookup 0) as [[|] v]; cbn [fst]; cbn.
  - now rewrite IH.
  - exact IH.
Qed.

Lemma filter_all {A : Type} (f : A -> bool) (l : list A) :
  (forall x, In x l -> f x = true) -> filter f l = l.
Proof.
  induction l as [|x l IH]; intros Hall; [reflexivity|].
  cbn [filter]. rewrite (Hall x (or_introl eq_refl)). f_equal.
  apply IH. intros y Hy. apply Hall. now right.
Qed.

(** X20. The DNS listing of all added nodes names exactly the added nodes
    whose lookup succeeds, in the order of the added-node list; it has one
    entry for every added node when every lookup succeeds. *)
Theorem getaddednodeinfo_lists_resolved (g : Globals) :
  exists entries,
    getaddednodeinfo [Vbool true] false g = (Return (Varray entries), g, [])
    /\ map (fun e => field e "addednode") entries
         = map Vstr (filter (fun x => fst (Lookup x GetDefaultPort fNameLookup 0))
                            (vAddedNodes g))
    /\ ((forall x, In x (vAddedNodes g) ->
           fst (Lookup x GetDefaultPort fNameLookup 0) = true) ->
        map (fun e => field e "addednode") entries = map Vstr (vAddedNodes g)).
Proof.
  eexists. split; [apply (getaddednodeinfo_all g true)|].
  assert (E : map (fun e => field e "addednode")
                (map (added_entry (vNodes g)) (resolved (vAddedNodes g)))
              = map Vstr (filter (fun x => fst (Lookup x GetDefaultPort fNameLookup 0))
                                 (vAddedNodes g))).
  { rewrite <- resolved_filter, !map_map. reflexivity. }
  split; [exact E|].
  intros Hall. rewrite E. f_equal. apply filter_all. exact Hall.
Qed.

Lemma find_first_match (a : CService) (pre post : list CNode) (p : CNode) :
  (forall q, In q pre -> addr q <> a) -> addr p = a ->
  List.find (fun q => CService_eqb (addr q) a) (pre ++ p :: post) = Some p.
Proof.
  intros Hpre Hp. induction pre as [|q pre IH]; cbn.
  - replace (CService_eqb (addr p) a) with true; [reflexivity|].
    symmetry. now apply CService_eqb_eq.
  - destruct (CService_eqb (addr q) a) eqn:E.
    + apply CService_eqb_eq in E. exfalso. apply (Hpre q); [now left|exact E].
    + apply IH. intros r Hr. apply Hpre. now right.
Qed.

(** X21. When an added node resolves to a single address and several live
    peers have that address, the listing reports the node connected with
    the direction of the peer registered first. *)
Theorem getaddednodeinfo_first_peer_direction (g : Globals) (x : string)
    (a : CService) (pre post : list CNode) (p : CNode) :
  In x (vAddedNodes g) ->
  Lookup x GetDefaultPort fNameLookup 0 = (true, [a]) ->
  vNodes g = pre ++ p :: post ->
  (forall q, In q pre -> addr q <> a) -> addr p = a ->
  getaddednodeinfo [Vbool true; Vstr x] false g
    = (Return (Varray
         [Vobject
            [("addednode", Vstr x);
             ("connected", Vbool true);
             ("addresses",
              Varray [Vobject [("address", Vstr (ToString a));
                               ("connected",
                                Vstr (if fInbound p then "inbound" else "outbound"))]])]]),
       g, []).
Proof.
  intros Hin Hl Hn Hpre Hp.
  rewrite (getaddednodeinfo_one g true x Hin). unfold resolved. cbn [flat_map].
  rewrite Hl. cbn [app map]. unfold added_entry, address_entry, connected_to.
  cbn [fst snd map existsb]. rewrite find_existsb, Hn.
  rewrite (find_first_match a pre post p Hpre Hp). reflexivity.
Qed.

End FurtherProperties.

(** * Further runs on the concrete node *)

Section FurtherRuns.

Local Open Scope string_scope.
Local Open Scope list_scope.

Import Testnet Testnet2.

(** Adding a new target to the three distinct added nodes of the concrete
    node. *)
Lemma addnode_keeps_NoDup_witness :
  NoDup (vAddedNodes globals)
  /\ NoDup (vAddedNodes
              (snd (fst (@addnode collaborators [Vstr "10.0.0.9"; Vstr "add"] false globals)))).
Proof.
  assert (Hd : NoDup (vAddedNodes globals)).
  { cbn. repeat constructor; cbn; intuition discriminate. }
  split; [exact Hd|].
  exact (@addnode_keeps_NoDup collaborators [Vstr "10.0.0.9"; Vstr "add"] false globals Hd).
Defined.

(** Removing seed.example from the concrete node. *)
Lemma addnode_outcomes_witness :
  exists g',
    @addnode collaborators [Vstr "seed.example"; Vstr "remove"] false globals
      = (Return Vnull, g', [])
    /\ mapAlerts g' = mapAlerts globals
    /\ vAddedNodes g' = ["10.0.0.5"; "no.such.host"].
Proof.
  eexists. split; [reflexivity|].
  split; [|reflexivity].
  exact (proj1 (@addnode_outcomes collaborators
                  [Vstr "seed.example"; Vstr "remove"] false globals _ _ _ eq_refl)).
Defined.

(** Asking for a key whose public key begins with 0a: the eleventh draw. *)
Lemma makekeypair_key_has_prefix_witness :
  exists pubkey secret,
    @makekeypair collaborators peers [Vstr "0a"] false globals
      = (Return (Vobject [("PublicKey", Vstr pubkey); ("PrivateKey", Vstr secret)]),
         globals, [])
    /\ String.prefix "0a" pubkey = true.
Proof.
  assert (E : @makekeypair collaborators peers [Vstr "0a"] false globals
              = (Return (Vobject [("PublicKey", Vstr "0a");
                                  ("PrivateKey", Vstr "secret:0a")]), globals, []))
    by (vm_compute; reflexivity).
  destruct (@makekeypair_key_has_prefix collaborators peers _ _ _ _ _ _ E)
    as (pubkey & secret & Hobj & Hpre).
  exists pubkey, secret. split.
  - rewrite E, Hobj. reflexivity.
  - apply Hpre. reflexivity.
Defined.

(** With the prefix 0a the first ten draws differ and the eleventh matches. *)
Lemma makekeypair_first_match_witness :
  @makekeypair collaborators peers [Vstr "0a"] false globals
    = (Return (Vobject [("PublicKey", Vstr "0a"); ("PrivateKey", Vstr "secret:0a")]),
       globals, []).
Proof.
  apply (proj2 (@makekeypair_first_match collaborators peers "0a" globals) 10%Z).
  - lia.
  - reflexivity.
  - intros j Hj.
    assert (Hcases : (j = 0 \/ j = 1 \/ j = 2 \/ j = 3 \/ j = 4 \/ j = 5 \/ j = 6
                      \/ j = 7 \/ j = 8 \/ j = 9)%Z) by lia.
    repeat (destruct Hcases as [->|Hcases]; [reflexivity|]). subst j. reflexivity.
Defined.

(** The subversion text /B/A/B/ gives the set /A/, /B/. *)
Lemma sendalert_subversions_ascending_witness :
  exists alert,
    In (CallProcessAlert alert)
       (snd (@sendalert collaborators unordered_params false globals))
    /\ setSubVer alert = ["/A/"; "/B/"]
    /\ NoDup (setSubVer alert).
Proof.
  destruct (@sendalert collaborators unordered_params false globals)
    as [[r g'] calls] eqn:E.
  assert (Hin : exists alert,
             In (CallProcessAlert alert) calls /\ setSubVer alert = ["/A/"; "/B/"]).
  { vm_compute in E. injection E as _ _ <-. eexists. split; [right; left|]; reflexivity. }
  destruct Hin as (alert & Hin & Hset). exists alert.
  split; [exact Hin|]. split; [exact Hset|].
  exact (proj2 (@sendalert_subversions_ascending collaborators _ _ _ _ _ _ _ _
                  E Hin eq_refl)).
Defined.

(** The elements of the set made from /A/B/ have the delimited form. *)
Lemma sendalert_subversions_delimited_witness :
  exists alert,
    In (CallProcessAlert alert) (snd (@sendalert collaborators good_params false globals))
    /\ In "/A/" (setSubVer alert)
    /\ forall x, In x (setSubVer alert) ->
         String.get 0 x = Some "/"%char
         /\ String.get (String.length x - 1) x = Some "/"%char.
Proof.
  destruct (@sendalert collaborators good_params false globals) as [[r g'] calls] eqn:E.
  assert (Hin : exists alert,
             In (CallProcessAlert alert) calls /\ In "/A/" (setSubVer alert)).
  { vm_compute in E. injection E as _ _ <-. eexists.
    split; [right; left; reflexivity|left; reflexivity]. }
  destruct Hin as (alert & Hin & HA). exists alert.
  split; [exact Hin|]. split; [exact HA|].
  intros x Hx.
  destruct (@sendalert_subversions_delimited collaborators _ _ _ _ _ _ _ _ "/A/B/"
              E Hin eq_refl eq_refl eq_refl x Hx) as (_ & H0 & Hlast & _).
  split; assumption.
Defined.

(** The object returned for the well-formed call on the concrete node. *)
Lemma sendalert_response_witness :
  exists res g' calls,
    @sendalert collaborators good_params false globals = (Return res, g', calls)
    /\ field res "SubVer" = Vstr "/A/ or /B/"
    /\ has_key res "Cancel" = false.
Proof.
  destruct (@sendalert collaborators good_params false globals) as [[r g'] calls] eqn:E.
  assert (Hr : exists res, r = Return res)
    by (vm_compute in E; injection E as <- _ _; eexists; reflexivity).
  destruct Hr as [res ->]. exists res, g', calls. split; [reflexivity|].
  destruct (@sendalert_response collaborators _ _ _ _ _ _ "/A/B/" E eq_refl eq_refl)
    as (alert & Hin & _ & _ & _ & _ & _ & Hsub & _ & _ & _ & Hcancel & _).
  assert (Ha : setSubVer alert = ["/A/"; "/B/"] /\ nCancel alert = 0%Z).
  { vm_compute in E. injection E as _ _ <-.
    destruct Hin as [Hin|[Hin|[Hin|[Hin|[Hin|[]]]]]]; try discriminate Hin.
    injection Hin as <-. split; reflexivity. }
  destruct Ha as [Hset Hc]. rewrite Hsub, Hcancel, Hset, Hc. split; reflexivity.
Defined.

(** The validity times of the alert of the well-formed call: one year after
    the clock of the concrete node. *)
Lemma sendalert_validity_times_witness :
  (0 <= @GetAdjustedTime collaborators < 2 ^ 62)%Z
  /\ exists alert,
       In (CallProcessAlert alert)
          (snd (@sendalert collaborators good_params false globals))
       /\ nRelayUntil alert = 1431536000%Z
       /\ nExpiration alert = 1431536000%Z
       /\ nCancel alert = 0%Z.
Proof.
  assert (Hnow : (0 <= @GetAdjustedTime collaborators < 2 ^ 62)%Z) by (cbn; lia).
  split; [exact Hnow|].
  destruct (@sendalert collaborators good_params false globals) as [[r g'] calls] eqn:E.
  assert (Hin : exists alert, In (CallProcessAlert alert) calls).
  { vm_compute in E. injection E as _ _ <-. eexists. right; left; reflexivity. }
  destruct Hin as (alert & Hin). exists alert. split; [exact Hin|].
  destruct (@sendalert_validity_times collaborators _ _ _ _ _ _ _ _
              E Hin eq_refl Hnow) as (_ & _ & _ & _ & Hdef).
  destruct (Hdef eq_refl) as (Hr & He & Hc).
  rewrite Hr, He, Hc. repeat split.
Defined.

(** The well-formed call on the concrete node relays to its two peers. *)
Lemma sendalert_relays_once_witness :
  exists res g' calls alert logs,
    @sendalert collaborators good_params false globals = (Return res, g', calls)
    /\ calls = logs ++ [CallProcessAlert alert; CallPrint alert;
                        CallRelayTo alert 1; CallRelayTo alert 2].
Proof.
  destruct (@sendalert collaborators good_params false globals) as [[r g'] calls] eqn:E.
  assert (Hr : exists res, r = Return res)
    by (vm_compute in E; injection E as <- _ _; eexists; reflexivity).
  destruct Hr as [res ->].
  destruct (@sendalert_relays_once collaborators _ _ _ _ _ _ E)
    as (alert & logs & key & _ & Hc & _).
  exists res, g', calls, alert, logs. split; [reflexivity|exact Hc].
Defined.

(** Two live peers hold the address of 10.0.0.5; the inbound one was
    registered first. *)
Lemma getaddednodeinfo_first_peer_direction_witness :
  @getaddednodeinfo collaborators [Vbool true; Vstr "10.0.0.5"] false shared_address
    = (Return (Varray
         [Vobject
            [("addednode", Vstr "10.0.0.5");
             ("connected", Vbool true);
             ("addresses",
              Varray [Vobject [("address", Vstr "10.0.0.5:9377");
                               ("connected", Vstr "inbound")]])]]),
       shared_address, []).
Proof.
  apply (@getaddednodeinfo_first_peer_direction collaborators shared_address "10.0.0.5"
           host_a [peer 1 host_b true] [peer 3 host_a false] (peer 2 host_a true)).
  - cbn. tauto.
  - reflexivity.
  - reflexivity.
  - intros q [<-|[]]. discriminate.
  - reflexivity.
Defined.

End FurtherRuns.
